(** * react-sceneview: the Layer component and the DrawingTool component

    A shallow embedding of [src/scene/layer/index.jsx] and
    [src/tools/drawing-tool/index.js].

    The mapping engine, the layer loader ([./load]) and the update
    dispatcher ([./update]) are external collaborators: every call the
    components make to them is recorded as an event of a trace, and
    what they answer (a promise that resolves or rejects, the instant at
    which React unmounts or re-renders the component) is an input of the
    model. Of React (version 16) the model has what the components rely
    on: the order of the lifecycle methods, and [setState], which outside
    of an event handler renders the component before it returns. *)

From Stdlib Require Import List String Ascii ZArith Lia Bool Arith.
From Stdlib Require Import DecimalString.
Import ListNotations.
Local Open Scope string_scope.
Local Open Scope list_scope.

(* ================================================================= *)
(** ** JavaScript values as the two components read them *)

Module JS.

(** An engine layer: [id] is what [load] compares, [href] is the object
    identity, [hremoveAll] tells whether [layer.source.removeAll]
    exists. *)
Record Handle := mkHandle { hid : string; href : nat; hremoveAll : bool }.

(** A view: [items] is the content of [view.map.layers.items] at the
    moment [load] reads it. *)
Record View := mkView { vref : nat; items : list Handle }.

#[local] Set Warnings "-register-all".

(** Numbers are the integer-valued ones. Objects are compared by
    identity, as [===] does. Of an object that is neither a function, nor
    an array, nor a view, the components read [length]: [len] is its
    value, [undefined] when the object has none; such an object has no
    method of its own. A function has its number of parameters as
    [length] and its source as text. *)
Inductive value :=
| VUndefined
| VNull
| VBool (b : bool)
| VNum (n : Z)
| VStr (s : string)
| VObj (ref : nat) (len : value)
| VFun (ref : nat) (arity : nat) (text : string)
| VArr (ref : nat) (elems : list value)
| VView (v : View).

(** [a === b] *)
Definition strict_eqb (a b : value) : bool :=
  match a, b with
  | VUndefined, VUndefined => true
  | VNull, VNull => true
  | VBool x, VBool y => Bool.eqb x y
  | VNum x, VNum y => Z.eqb x y
  | VStr x, VStr y => String.eqb x y
  | VObj r _, VObj r' _ => Nat.eqb r r'
  | VFun r _ _, VFun r' _ _ => Nat.eqb r r'
  | VArr r _, VArr r' _ => Nat.eqb r r'
  | VView v, VView v' => Nat.eqb (vref v) (vref v')
  | _, _ => false
  end.

(** ToBoolean *)
Definition truthy (v : value) : bool :=
  match v with
  | VUndefined | VNull => false
  | VBool b => b
  | VNum n => negb (Z.eqb n 0)
  | VStr s => negb (String.eqb s "")
  | VObj _ _ | VFun _ _ _ | VArr _ _ | VView _ => true
  end.

(** [v.length], which the components read on truthy values only: the
    number of elements of an array, of characters of a string, of
    parameters of a function, the [length] property of another object;
    booleans, numbers and views have none. *)
Definition length_of (v : value) : value :=
  match v with
  | VArr _ elems => VNum (Z.of_nat (List.length elems))
  | VStr s => VNum (Z.of_nat (String.length s))
  | VFun _ arity _ => VNum (Z.of_nat arity)
  | VObj _ len => len
  | _ => VUndefined
  end.

(** A plain object: its own properties in [Object.keys] order. *)
Definition Obj := list (string * value).

Definition keys (o : Obj) : list string := map fst o.

(** [o[k]]: [undefined] when [k] is not a property. *)
Fixpoint get (o : Obj) (k : string) : value :=
  match o with
  | [] => VUndefined
  | (k', v) :: o' => if String.eqb k' k then v else get o' k
  end.

(** [o[k] = v]: overwrite in place, or append a new property. *)
Fixpoint set (o : Obj) (k : string) (v : value) : Obj :=
  match o with
  | [] => [(k, v)]
  | (k', v') :: o' =>
      if String.eqb k' k then (k', v) :: o' else (k', v') :: set o' k v
  end.

Fixpoint join_comma (l : list string) : string :=
  match l with
  | [] => ""
  | [s] => s
  | s :: l' => (s ++ "," ++ join_comma l')%string
  end.

(** ToString, as [RegExp.prototype.test] applies it to its argument. *)
Fixpoint ToString (v : value) : string :=
  match v with
  | VUndefined => "undefined"
  | VNull => "null"
  | VBool true => "true"
  | VBool false => "false"
  | VNum n => NilZero.string_of_int (Z.to_int n)
  | VStr s => s
  | VObj _ _ | VView _ => "[object Object]"
  | VFun _ _ text => text
  | VArr _ elems =>
      join_comma
        (map (fun e => match e with
                       | VUndefined | VNull => ""
                       | _ => ToString e
                       end) elems)
  end.

End JS.
Import JS.

(* ================================================================= *)
(** ** Settings Extractor: [getLayerSettings] *)

Module Settings.

(** [Object.keys(layerSettingsProps)] *)
Definition layerSettingsProps : list string :=
  [ "id"; "url"; "portalItem"; "layerType"; "visible";
    "definitionExpression"; "renderer"; "rendererJson"; "labelingInfo";
    "labelsVisible"; "outFields"; "elevationInfo"; "geometryType"; "hasZ";
    "fields"; "objectIdField"; "objectIdFilter"; "selectable";
    "relatedLayer"; "spatialReference"; "opacity"; "minScale"; "maxScale";
    "featureReduction"; "source"; "legendEnabled"; "title";
    "maskingGeometry"; "popupEnabled"; "popupTemplate"; "onLoad" ].

(** [props.layerType !== 'point-cloud' || key !== 'opacity'] *)
Definition not_pointcloud_opacity (props : Obj) (key : string) : bool :=
  negb (strict_eqb (get props "layerType") (VStr "point-cloud"))
  || negb (String.eqb key "opacity").

(** [props[key] !== null && props[key] !== undefined] *)
Definition present (props : Obj) (key : string) : bool :=
  negb (strict_eqb (get props key) VNull)
  && negb (strict_eqb (get props key) VUndefined).

Definition getLayerSettings (props : Obj) : Obj :=
  fold_left (fun settings key => set settings key (get props key))
    (filter (present props)
       (filter (not_pointcloud_opacity props) layerSettingsProps))
    [].

End Settings.

(* ================================================================= *)
(** ** Highlight Resolver: [getOIDfromGlobalId], [getHighlightOIDs] *)

Module Uuid.

(** The character classes of the pattern
    [/^[0-9a-f]{8}-[0-9a-f]{4}-[1-5][0-9a-f]{3}-[89ab][0-9a-f]{3}-[0-9a-f]{12}$/i]. *)
Inductive cclass :=
| CHex      (* [0-9a-f] *)
| CDash     (* - *)
| CVersion  (* [1-5] *)
| CVariant. (* [89ab] *)

(** The pattern between [^] and [$]: a class and its repetition count. *)
Definition pattern : list (cclass * nat) :=
  [ (CHex, 8); (CDash, 1); (CHex, 4); (CDash, 1);
    (CVersion, 1); (CHex, 3); (CDash, 1);
    (CVariant, 1); (CHex, 3); (CDash, 1); (CHex, 12) ].

Definition between (lo hi c : ascii) : bool :=
  Nat.leb (nat_of_ascii lo) (nat_of_ascii c)
  && Nat.leb (nat_of_ascii c) (nat_of_ascii hi).

(** The [i] flag: letters are compared after case folding. *)
Definition fold_case (c : ascii) : ascii :=
  if between "A" "Z" c then ascii_of_nat (nat_of_ascii c + 32) else c.

Definition in_class (k : cclass) (c : ascii) : bool :=
  let c := fold_case c in
  match k with
  | CHex => between "0" "9" c || between "a" "f" c
  | CDash => Ascii.eqb c "-"
  | CVersion => between "1" "5" c
  | CVariant =>
      Ascii.eqb c "8" || Ascii.eqb c "9" || Ascii.eqb c "a" || Ascii.eqb c "b"
  end.

(** [k{n}] at the head of [s]: what is left of [s] after it. *)
Fixpoint match_rep (k : cclass) (n : nat) (s : string) : option string :=
  match n with
  | O => Some s
  | S n' =>
      match s with
      | String c s' => if in_class k c then match_rep k n' s' else None
      | EmptyString => None
      end
  end.

(** The pattern is anchored at both ends; without the [m] flag [$] is the
    end of the input. *)
Fixpoint match_seq (p : list (cclass * nat)) (s : string) : bool :=
  match p with
  | [] => String.eqb s ""
  | (k, n) :: p' =>
      match match_rep k n s with
      | Some rest => match_seq p' rest
      | None => false
      end
  end.

(** [pattern.test(v)] *)
Definition test (v : value) : bool := match_seq pattern (ToString v).

(** The canonical UUID textual shape in the words of the specification:
    five groups of 8, 4, 4, 4 and 12 hexadecimal digits separated by
    dashes, the version nibble (first digit of the third group) in 1..5,
    the variant nibble (first digit of the fourth group) one of 8, 9, a,
    b, letters in either case. *)
Definition is_hex (c : ascii) : Prop :=
  In c (list_ascii_of_string "0123456789abcdefABCDEF").

Definition is_version (c : ascii) : Prop :=
  In c (list_ascii_of_string "12345").

Definition is_variant (c : ascii) : Prop :=
  In c (list_ascii_of_string "89abAB").

Definition hex_group (n : nat) (g : string) : Prop :=
  String.length g = n /\ Forall is_hex (list_ascii_of_string g).

Definition uuid_shape (s : string) : Prop :=
  exists (g1 g2 : string) (ver : ascii) (g3 : string) (var : ascii)
         (g4 g5 : string),
    s = (g1 ++ "-" ++ g2 ++ "-" ++ String ver g3 ++ "-" ++ String var g4
            ++ "-" ++ g5)%string
    /\ hex_group 8 g1 /\ hex_group 4 g2
    /\ is_version ver /\ hex_group 3 g3
    /\ is_variant var /\ hex_group 3 g4
    /\ hex_group 12 g5.

(** Auxiliary notions of the proofs: membership of a character in a
    string of characters, a string made of characters of one class, a
    string of decimal digits. *)
Definition member (l : string) (c : ascii) : bool :=
  existsb (Ascii.eqb c) (list_ascii_of_string l).

Definition all_in (k : cclass) (g : string) : Prop :=
  Forall (fun c => in_class k c = true) (list_ascii_of_string g).

Definition digits_only (s : string) : Prop :=
  Forall (fun c => member "0123456789" c = true) (list_ascii_of_string s).

End Uuid.

Module Highlight.

(** A feature graphic: [attributes] is its attribute object. *)
Record Graphic := mkGraphic { attributes : Obj }.

(** A view object, as the component reads it: [lvref] is its identity,
    [graphics] is [layerView.controller.graphics], [objectIdField] is
    [layerView.layer.objectIdField], [can_highlight] tells whether the
    [highlight] method exists. *)
Record LayerView := mkLayerView {
  lvref : nat;
  graphics : list Graphic;
  objectIdField : string;
  can_highlight : bool
}.

Definition getOIDfromGlobalId (layerView : LayerView) (GlobalID : value) : value :=
  match find (fun e => strict_eqb (get (attributes e) "GlobalID") GlobalID)
             (graphics layerView) with
  | None => VNull
  | Some graphic => get (attributes graphic) (objectIdField layerView)
  end.

Definition getHighlightOIDs (layerView : LayerView) (mysteryIds : list value)
  : list value :=
  map (fun mysteryId =>
         if Uuid.test mysteryId
         then getOIDfromGlobalId layerView mysteryId
         else mysteryId)
      mysteryIds.

(** MysteryId of the data model: a string or a number. *)
Inductive MysteryId :=
| IdStr (s : string)
| IdNum (n : Z).

Definition id_value (m : MysteryId) : value :=
  match m with
  | IdStr s => VStr s
  | IdNum n => VNum n
  end.

(** The resolver in the words of the specification: the native row
    identifier of the first loaded graphic whose global identifier equals
    the id, or null. *)
Fixpoint first_with_global_id (gs : list Graphic) (gid : value) : option Graphic :=
  match gs with
  | [] => None
  | g :: gs' =>
      if strict_eqb (get (attributes g) "GlobalID") gid then Some g
      else first_with_global_id gs' gid
  end.

Definition resolve_one (lv : LayerView) (m : MysteryId) (out : value) : Prop :=
  (Uuid.uuid_shape (ToString (id_value m)) ->
     match first_with_global_id (graphics lv) (id_value m) with
     | Some g => out = get (attributes g) (objectIdField lv)
     | None => out = VNull
     end)
  /\ (~ Uuid.uuid_shape (ToString (id_value m)) -> out = id_value m).

End Highlight.

(* ================================================================= *)
(** ** Effects: a state and exception monad *)

Module Eff.

(** What an [async] function or a method ends with when it does not
    return: a TypeError of the language, the rejection of an awaited
    promise, or an exception a collaborator raises; the components catch
    none of them. *)
Inductive error := TypeError | Rejection | Raised.

Inductive outcome (A : Type) :=
| Done (a : A)
| Thrown (e : error).
Arguments Done {A} a.
Arguments Thrown {A} e.

Section Monad.
Context {S : Type}.

Definition M (A : Type) : Type := S -> outcome A * S.

Definition ret {A} (a : A) : M A := fun s => (Done a, s).

Definition bind {A B} (c : M A) (k : A -> M B) : M B :=
  fun s =>
    match c s with
    | (Done a, s') => k a s'
    | (Thrown e, s') => (Thrown e, s')
    end.

Definition throw {A} (e : error) : M A := fun s => (Thrown e, s).

Definition getS : M S := fun s => (Done s, s).

Definition modify (f : S -> S) : M unit := fun s => (Done tt, f s).
End Monad.
Arguments M S A : clear implicits.

Module Notations.
  Declare Scope eff_scope.
  Delimit Scope eff_scope with eff.
  Notation "x <- c ;; k" := (bind c (fun x => k))
    (at level 61, c at next level, right associativity) : eff_scope.
  Notation "c ;; k" := (bind c (fun _ => k))
    (at level 61, right associativity) : eff_scope.
End Notations.

End Eff.

(* ================================================================= *)
(** ** The Layer component *)

Module Layer.
Import Eff Eff.Notations Settings Highlight.
Local Open Scope eff_scope.

(** The handle [layerView.highlight] returns. *)
Definition HighlightSet := nat.

(** [this.state] *)
Record State := mkState {
  layer : option Handle;
  layerView : option LayerView;
  highlights : option HighlightSet
}.

(** The argument of [setState]. *)
Inductive Patch :=
| PHighlights (hs : HighlightSet)
| PLayer (l : Handle) (lv : LayerView).

(** What [layerView.highlight] is called with: the fresh array
    [getHighlightOIDs] builds, or a value of the props as it is. *)
Inductive HighlightArg :=
| Ids (ids : list value)
| Raw (v : value).

(** The calls the component makes to its collaborators, and the two
    React entry points that interleave with [load]. *)
Inductive Event :=
| ELoadLayer (settings : Obj)                    (* loadLayer(settings) *)
| EMapAdd (v : View) (l : Handle)                (* view.map.add(layer) *)
| EMapRemove (v : View) (l : Handle)             (* view.map.remove(layer) *)
| ELayersRemove (v : View) (l : Handle)          (* view.map.layers.remove(layer) *)
| EWhenLayerView (v : View) (l : Handle)         (* view.whenLayerView(layer) *)
| ELayerWhen (l : Handle)                        (* layer.when() *)
| EApplyUpdates (prev next : Obj) (l : option Handle) (lv : option LayerView)
| EHighlight (lv : LayerView) (arg : HighlightArg) (hs : HighlightSet)
| EHighlightRemove (hs : HighlightSet)           (* highlights.remove() *)
| ERefresh (lv : LayerView)                      (* layerView.refresh() *)
| ESourceRemoveAll (l : Handle)                  (* layer.source.removeAll() *)
| ESetState (p : Patch)                          (* this.setState(p) *)
| EOnLoad (l : Handle)                           (* this.props.onLoad(layer) *)
| EWillUnmount.                                  (* React calls componentWillUnmount *)

(** The instance and what it has done so far. [fresh] names the next
    handle the engine's [highlight] hands out. *)
Record World := mkWorld {
  componentIsMounted : bool;
  props : Obj;
  state : State;
  trace : list Event;
  fresh : nat
}.

Definition emit (e : Event) : M World unit :=
  modify (fun w => mkWorld (componentIsMounted w) (props w) (state w)
                           (trace w ++ [e]) (fresh w)).

Definition set_mounted (b : bool) : M World unit :=
  modify (fun w => mkWorld b (props w) (state w) (trace w) (fresh w)).

Definition set_props (p : Obj) : M World unit :=
  modify (fun w => mkWorld (componentIsMounted w) p (state w) (trace w) (fresh w)).

Definition set_state (s : State) : M World unit :=
  modify (fun w => mkWorld (componentIsMounted w) (props w) s (trace w) (fresh w)).

Definition apply_patch (p : Patch) (s : State) : State :=
  match p with
  | PHighlights hs => mkState (layer s) (layerView s) (Some hs)
  | PLayer l lv => mkState (Some l) (Some lv) (highlights s)
  end.

(** [layerView.highlight(arg)]: the engine hands out a new handle. *)
Definition engine_highlight (lv : LayerView) (arg : HighlightArg)
  : M World HighlightSet :=
  w <- getS ;;
  let hs := fresh w in
  modify (fun w => mkWorld (componentIsMounted w) (props w) (state w)
                           (trace w ++ [EHighlight lv arg hs]) (S hs)) ;;
  ret hs.

(** [getHighlightOIDs(layerView, mysteryIds)] on a value of the props:
    [mysteryIds.map] exists on arrays only. *)
Definition getHighlightOIDs_of (lv : LayerView) (mysteryIds : value)
  : M World (list value) :=
  match mysteryIds with
  | VArr _ elems => ret (getHighlightOIDs lv elems)
  | _ => throw TypeError
  end.

(** [static getDerivedStateFromProps(props, state)]: the new value of
    [state.highlights]; [None] stands for the falsy value at which the
    [&&] chain stops. *)
Definition getDerivedStateFromProps (props : Obj) (state : State)
  : M World (option HighlightSet) :=
  newHighlights <-
    (let highlight := get props "highlight" in
     if negb (truthy highlight) then ret None
     else if negb (truthy (length_of highlight)) then ret None
     else match layerView state with
          | None => ret None
          | Some lv =>
              if negb (can_highlight lv) then ret None
              else
                ids <- getHighlightOIDs_of lv highlight ;;
                hs <- engine_highlight lv (Ids ids) ;;
                ret (Some hs)
          end) ;;
  match highlights state with
  | Some old => emit (EHighlightRemove old)
  | None => ret tt
  end ;;
  ret newHighlights.

(** [componentDidUpdate(prevProps)]. Nothing follows the await of
    [applyUpdates]. *)
Definition componentDidUpdate (prevProps : Obj) : M World unit :=
  w <- getS ;;
  match layer (state w) with
  | None => ret tt
  | Some _ =>
      match find (fun key => negb (strict_eqb (get prevProps key)
                                              (get (props w) key)))
                 (keys prevProps) with
      | None => ret tt
      | Some key =>
          if negb (truthy (VStr key)) then ret tt
          else
            (if negb (strict_eqb (get (props w) "refresh")
                                 (get prevProps "refresh"))
             then match layerView (state w) with
                  | Some lv => emit (ERefresh lv)
                  | None => throw TypeError
                  end
             else ret tt) ;;
            emit (EApplyUpdates prevProps (props w)
                                (layer (state w)) (layerView (state w)))
      end
  end.

(** [componentWillUnmount()] *)
Definition componentWillUnmount : M World unit :=
  emit EWillUnmount ;;
  set_mounted false ;;
  w <- getS ;;
  match layer (state w) with
  | None => ret tt
  | Some l =>
      (if hremoveAll l then emit (ESourceRemoveAll l) else ret tt) ;;
      match get (props w) "view" with
      | VView v => emit (ELayersRemove v l)
      | _ => throw TypeError
      end
  end.

(** React renders the component again with [nextProps]: the derived
    state is computed from the next props and the current state, then
    [componentDidUpdate] receives the previous props. *)
Definition rerender (nextProps : Obj) : M World unit :=
  w <- getS ;;
  let prevProps := props w in
  hl <- getDerivedStateFromProps nextProps (state w) ;;
  set_props nextProps ;;
  set_state (mkState (layer (state w)) (layerView (state w)) hl) ;;
  componentDidUpdate prevProps.

(** What React may do with the component while [load] is suspended. An
    exception these entry points throw goes to React, not to [load]. *)
Inductive Action :=
| Unmount
| Rerender (nextProps : Obj).

Definition act (a : Action) (w : World) : World :=
  match a with
  | Unmount => snd (componentWillUnmount w)
  | Rerender p => snd (rerender p w)
  end.

Definition interfere (acts : list Action) (w : World) : World :=
  fold_left (fun w a => act a w) acts w.

(** A call of an [async] method whose promise nobody awaits: what the
    method throws rejects the promise and goes no further. *)
Definition unawaited {A} (c : M World A) : M World unit :=
  fun w => (Done tt, snd (c w)).

(** [this.setState(p)] as [load] calls it, outside of the event handlers
    of React: React 16 applies the update before [setState] returns. The
    instance is mounted from [componentDidMount] to
    [componentWillUnmount], that is while the flag is set, and the update
    of an instance that is not mounted is dropped. Otherwise the patch is
    merged into the state, the highlights are derived from the props and
    the merged state, the component renders, and [componentDidUpdate]
    receives the props, which have not changed. When the derivation
    throws, the state is left as it was, React unmounts the tree (no
    error boundary is assumed above the component) and the exception
    leaves [setState]. *)
Definition setState (p : Patch) : M World unit :=
  emit (ESetState p) ;;
  w <- getS ;;
  if negb (componentIsMounted w) then ret tt
  else
    let merged := apply_patch p (state w) in
    fun w0 =>
      match getDerivedStateFromProps (props w) merged w0 with
      | (Done newHighlights, w1) =>
          (set_state (mkState (layer merged) (layerView merged) newHighlights) ;;
           unawaited (componentDidUpdate (props w))) w1
      | (Thrown e, w1) => (Thrown e, snd (componentWillUnmount w1))
      end.

(** An awaited promise. *)
Inductive promise (A : Type) :=
| Resolves (a : A)
| Rejects.
Arguments Resolves {A} a.
Arguments Rejects {A}.

(** The answers of the collaborators to one run of [load], and what
    happens to the component at each of its four suspension points. *)
Record Schedule := mkSchedule {
  loadLayer_result : promise (option Handle);
  during_loadLayer : list Action;
  whenLayerView_result : promise LayerView;
  during_whenLayerView : list Action;
  when_result : promise unit;
  during_when : list Action;
  applyUpdates_result : promise unit;
  during_applyUpdates : list Action
}.

(** [await p]: the component is suspended, React acts, the promise
    settles. *)
Definition await {A} (acts : list Action) (p : promise A) : M World A :=
  modify (interfere acts) ;;
  match p with
  | Resolves a => ret a
  | Rejects => throw Rejection
  end.

(** [this.props.onLoad(layer)]: a TypeError when [onLoad] is not a
    function. *)
Definition call_onLoad (l : Handle) : M World unit :=
  w <- getS ;;
  match get (props w) "onLoad" with
  | VFun _ _ _ => emit (EOnLoad l)
  | _ => throw TypeError
  end.

(** [async load(view, layerSettings)], in the three stretches the
    liveness checks cut it into. *)

(** From the await of [layer.when()] to the end. *)
Definition load_ready (sch : Schedule) (layerSettings : Obj)
  (l : Handle) (lv : LayerView) : M World unit :=
  emit (ELayerWhen l) ;;
  await (during_when sch) (when_result sch) ;;
  w <- getS ;;
  emit (EApplyUpdates layerSettings (props w)
                      (layer (state w)) (layerView (state w))) ;;
  await (during_applyUpdates sch) (applyUpdates_result sch) ;;
  w <- getS ;;
  (let selection := get (props w) "selection" in
   if truthy selection && truthy (length_of selection)
   then match layerView (state w) with
        | Some slv =>
            if can_highlight slv
            then hs <- engine_highlight slv (Raw selection) ;;
                 setState (PHighlights hs)
            else throw TypeError
        | None => throw TypeError
        end
   else ret tt) ;;
  setState (PLayer l lv) ;;
  call_onLoad l.

(** From [view.map.add(layer)] to the second liveness check. *)
Definition load_attach (sch : Schedule) (v : View) (layerSettings : Obj)
  (l : Handle) : M World unit :=
  emit (EMapAdd v l) ;;
  emit (EWhenLayerView v l) ;;
  lv <- await (during_whenLayerView sch) (whenLayerView_result sch) ;;
  w <- getS ;;
  if negb (componentIsMounted w) then emit (EMapRemove v l)
  else load_ready sch layerSettings l lv.

(** From the start to the first liveness check. *)
Definition load (sch : Schedule) (view : value) (layerSettings : Obj)
  : M World unit :=
  if negb (truthy view) then ret tt
  else
    match view with
    | VView v =>
        let existingLayer :=
          find (fun l => strict_eqb (VStr (hid l)) (get layerSettings "id"))
               (items v) in
        loaded <-
          match existingLayer with
          | Some l => ret (Some l)
          | None =>
              emit (ELoadLayer layerSettings) ;;
              await (during_loadLayer sch) (loadLayer_result sch)
          end ;;
        w <- getS ;;
        match negb (componentIsMounted w), loaded with
        | true, _ | _, None => ret tt
        | false, Some l => load_attach sch v layerSettings l
        end
    | _ => throw TypeError
    end.

(** [componentDidMount()] *)
Definition componentDidMount (sch : Schedule) : M World unit :=
  set_mounted true ;;
  w <- getS ;;
  let layerSettings := getLayerSettings (props w) in
  load sch (get (props w) "view") layerSettings.

(** The instance the constructor builds for [props]. *)
Definition constructed (p : Obj) : World :=
  mkWorld false p (mkState None None None) [] 0.

(** *** Notions the properties are stated with *)

(** [w] after the calls [es]. *)
Definition add_events (w : World) (es : list Event) : World :=
  mkWorld (componentIsMounted w) (props w) (state w) (trace w ++ es) (fresh w).

(** The events React's entry points ([componentWillUnmount], a new
    render followed by [componentDidUpdate]) can add, while [load] is
    suspended or in the render [setState] makes; the others are the calls
    only [load] makes. *)
Definition from_react (e : Event) : bool :=
  match e with
  | EHighlight _ _ _ | EHighlightRemove _ | ERefresh _ | EApplyUpdates _ _ _ _
  | ESourceRemoveAll _ | ELayersRemove _ _ | EWillUnmount => true
  | ELoadLayer _ | EMapAdd _ _ | EMapRemove _ _ | EWhenLayerView _ _
  | ELayerWhen _ | ESetState _ | EOnLoad _ => false
  end.

(** The highlight sets that are live after a trace: installed by
    [highlight] and not yet released by [remove]. *)
Definition live_step (l : list HighlightSet) (e : Event) : list HighlightSet :=
  match e with
  | EHighlight _ _ hs => l ++ [hs]
  | EHighlightRemove hs => filter (fun x => negb (Nat.eqb x hs)) l
  | _ => l
  end.

Definition live (tr : list Event) : list HighlightSet :=
  fold_left live_step tr [].

(** At most one highlight set is live after every prefix of the trace. *)
Definition one_live_throughout (tr : list Event) : Prop :=
  forall n, List.length (live (firstn n tr)) <= 1.

(** What [getDerivedStateFromProps] releases. *)
Definition release (st : State) : list Event :=
  match highlights st with
  | Some old => [EHighlightRemove old]
  | None => []
  end.

(** The life of a mounted instance as far as highlights go: React
    renders it with new props, or [load] stores the handle and the view
    object with [setState], which renders it again with the same
    props. A step that throws ends the run. *)
Inductive Step :=
| NewProps (p : Obj)
| Attached (l : Handle) (lv : LayerView).

Definition step (s : Step) : M World unit :=
  match s with
  | NewProps p => rerender p
  | Attached l lv => setState (PLayer l lv)
  end.

Fixpoint run (steps : list Step) : M World unit :=
  match steps with
  | [] => ret tt
  | s :: steps' => step s ;; run steps'
  end.

(** The highlight prop is absent (undefined or null) or an empty array. *)
Definition highlight_absent_or_empty (p : Obj) : Prop :=
  get p "highlight" = VUndefined
  \/ get p "highlight" = VNull
  \/ exists r, get p "highlight" = VArr r [].

(** The recognized keys of the specification: the keys of the Settings
    Extractor and the refresh counter. *)
Definition recognized_keys : list string := layerSettingsProps ++ ["refresh"].

(** [this.props.selection && this.props.selection.length] is falsy. *)
Definition no_selection (p : Obj) : Prop :=
  truthy (get p "selection") && truthy (length_of (get p "selection")) = false.

(** [props.highlight] is an array, or a value at which the [&&] chain of
    the derivation stops before [map] is needed. *)
Definition highlight_mappable (p : Obj) : Prop :=
  (exists r elems, get p "highlight" = VArr r elems)
  \/ truthy (get p "highlight") && truthy (length_of (get p "highlight"))
     = false.

(** What a derivation installs for the props [p] when the state holds
    the view object [lv]: the highlight set of the ids a non-empty
    highlight array resolves to, if the view object has a [highlight]
    method. *)
Definition installs (p : Obj) (lv : LayerView) (hs : HighlightSet)
  : list Event :=
  match get p "highlight" with
  | VArr _ (id :: ids) =>
      if can_highlight lv
      then [EHighlight lv (Ids (getHighlightOIDs lv (id :: ids))) hs]
      else []
  | _ => []
  end.

(** [this.props.onLoad] can be called. *)
Definition has_onLoad (p : Obj) : Prop :=
  exists f arity text, get p "onLoad" = VFun f arity text.

(** The props of the actions of a schedule. *)
Definition rendered (acts : list Action) (p : Obj) : Prop := In (Rerender p) acts.

(** *** Relations between the world before and after a computation *)

(** Every run of [c] relates the world it starts from to the world it
    leaves. *)
Definition respects (R : World -> World -> Prop) {A} (c : M World A) : Prop :=
  forall w, R w (snd (c w)).

(** The trace only grows, by events of a given kind. *)
Definition grows (P : Event -> Prop) (w w' : World) : Prop :=
  exists es, trace w' = trace w ++ es /\ Forall P es.

(** The liveness flag is left as it is. *)
Definition same_flag (w w' : World) : Prop :=
  componentIsMounted w' = componentIsMounted w.

(** The props are left as they are, or become [p]. *)
Definition props_or (p : Obj) (w w' : World) : Prop :=
  props w' = props w \/ props w' = p.

(** Only events of a given kind are added, and nothing else changes. *)
Definition appends (P : Event -> Prop) (w w' : World) : Prop :=
  exists es, w' = add_events w es /\ Forall P es.

(** An event that neither installs nor releases a highlight set. *)
Definition not_highlight (e : Event) : Prop := forall l, live_step l e = l.

(** The live highlight sets are the one [this.state.highlights] holds,
    and the engine has not handed out its name again. *)
Definition highlight_invariant (w : World) : Prop :=
  live (trace w)
  = match highlights (state w) with Some hs => [hs] | None => [] end
  /\ forall hs, highlights (state w) = Some hs -> hs < fresh w.

(** An event that is not a call of [view.map.add]. *)
Definition not_add (e : Event) : Prop := forall v l, e <> EMapAdd v l.

(** [view.map.layers.items.find(l => l.id === layerSettings.id)] *)
Definition existing_layer (v : View) (layerSettings : Obj) : option Handle :=
  find (fun l => strict_eqb (VStr (hid l)) (get layerSettings "id")) (items v).

(** [w] with the liveness flag set, as [componentDidMount] leaves it. *)
Definition mounted (w : World) : World :=
  mkWorld true (props w) (state w) (trace w) (fresh w).

(** *** Sample data *)

Definition layerView_a : LayerView := mkLayerView 2 [] "OBJECTID" true.

Definition layer_a : Handle := mkHandle "a" 1 false.

Definition view_empty : View := mkView 0 [].

Definition view_with_a : View := mkView 0 [layer_a].

Definition props_a (v : View) : Obj :=
  [ ("id", VStr "a"); ("layerType", VStr "feature"); ("view", VView v);
    ("highlight", VArr 3 []); ("onLoad", VFun 4 0 "() => null") ].

(** Props that differ from one render to the next in [highlight] only. *)
Definition props_highlight (ref : nat) (ids : list value) : Obj :=
  [ ("id", VStr "a"); ("layerType", VStr "feature"); ("refresh", VNull);
    ("highlight", VArr ref ids) ].

(** Props that differ from one render to the next in [refresh]. *)
Definition props_refresh (n : Z) : Obj :=
  [ ("id", VStr "a"); ("layerType", VStr "feature"); ("refresh", VNum n) ].

(** The instance once [load] has stored the handle and the view object. *)
Definition ready (p : Obj) : World :=
  mkWorld true p (mkState (Some layer_a) (Some layerView_a) None) [] 0.

Definition props_a_selection (v : View) : Obj :=
  props_a v ++ [("selection", VArr 5 [VNum 1])].

(** The same props with a highlight of one id. *)
Definition props_a_highlight (v : View) : Obj :=
  [ ("id", VStr "a"); ("layerType", VStr "feature"); ("view", VView v);
    ("highlight", VArr 3 [VNum 10]); ("onLoad", VFun 4 0 "() => null") ].

(** Every promise resolves, and React leaves the component alone. *)
Definition undisturbed : Schedule :=
  mkSchedule (Resolves (Some layer_a)) [] (Resolves layerView_a) []
             (Resolves tt) [] (Resolves tt) [].

Definition unmount_during_loadLayer : Schedule :=
  mkSchedule (Resolves (Some layer_a)) [Unmount] (Resolves layerView_a) []
             (Resolves tt) [] (Resolves tt) [].

Definition unmount_during_whenLayerView : Schedule :=
  mkSchedule (Resolves (Some layer_a)) [] (Resolves layerView_a) [Unmount]
             (Resolves tt) [] (Resolves tt) [].

Definition unmount_during_when : Schedule :=
  mkSchedule (Resolves (Some layer_a)) [] (Resolves layerView_a) []
             (Resolves tt) [Unmount] (Resolves tt) [].

Definition unmount_during_applyUpdates : Schedule :=
  mkSchedule (Resolves (Some layer_a)) [] (Resolves layerView_a) []
             (Resolves tt) [] (Resolves tt) [Unmount].

End Layer.

(* ================================================================= *)
(** ** The DrawingTool component: teardown *)

Module DrawingTool.
Import Eff Eff.Notations.
Local Open Scope eff_scope.

(** The calls of [componentWillUnmount] to the edit engine, to the
    subscription handles and to the view. *)
Inductive Call :=
| CUnsubscribe (sub : nat)            (* handle.remove() *)
| CComplete (m : nat)                 (* model.complete() *)
| CCancel (m : nat)                   (* model.cancel() *)
| CReset (m : nat)                    (* model.reset() *)
| CDestroy (m : nat)                  (* model.destroy() *)
| CMapRemove (view : nat) (l : nat).  (* view.map.remove(layer) *)

(** The instance fields [componentDidMount] assigns once the engine
    modules are loaded, [this.props.view], and the calls made so far. *)
Record Tool := mkTool {
  onCreate : option nat;
  onUpdate : option nat;
  model : option nat;
  layer : option nat;
  view : nat;
  calls : list Call
}.

(** The instance before [componentDidMount] has assigned anything. *)
Definition uninitialized (v : nat) : Tool :=
  mkTool None None None None v [].

Section Teardown.
(** Whether a call to a collaborator raises. *)
Variable raises : Call -> bool.

Definition call (c : Call) : M Tool unit :=
  modify (fun t => mkTool (onCreate t) (onUpdate t) (model t) (layer t)
                          (view t) (calls t ++ [c])) ;;
  if raises c then throw Raised else ret tt.

Definition componentWillUnmount : M Tool unit :=
  t <- getS ;;
  match onCreate t with Some s => call (CUnsubscribe s) | None => ret tt end ;;
  match onUpdate t with Some s => call (CUnsubscribe s) | None => ret tt end ;;
  match model t with
  | Some m =>
      call (CComplete m) ;;
      call (CCancel m) ;;
      call (CReset m) ;;
      call (CDestroy m)
  | None => ret tt
  end ;;
  match layer t with
  | Some l => call (CMapRemove (view t) l)
  | None => ret tt
  end.
End Teardown.

(** The calls the guards of [componentWillUnmount] let through. *)
Definition guarded_calls (t : Tool) : list Call :=
  match onCreate t with Some s => [CUnsubscribe s] | None => [] end
  ++ match onUpdate t with Some s => [CUnsubscribe s] | None => [] end
  ++ match model t with
     | Some m => [CComplete m; CCancel m; CReset m; CDestroy m]
     | None => []
     end
  ++ match layer t with Some l => [CMapRemove (view t) l] | None => [] end.

(** The calls of a list that are made when the first one that raises
    ends the method. *)
Fixpoint until_raise (raises : Call -> bool) (cs : list Call) : list Call :=
  match cs with
  | [] => []
  | c :: cs' => if raises c then [c] else c :: until_raise raises cs'
  end.

(** No collaborator raises. *)
Definition never : Call -> bool := fun _ => false.

(** The teardown in the words of the specification. *)
Definition teardown_order (sc su m v l : nat) : list Call :=
  [ CUnsubscribe sc; CUnsubscribe su;
    CComplete m; CCancel m; CReset m; CDestroy m;
    CMapRemove v l ].

End DrawingTool.

(* ================================================================= *)
(** ** The Layer component: default props, letter case, the calls of a mount *)

Module LayerMore.
Import Eff Eff.Notations Settings Highlight Layer.
Local Open Scope eff_scope.

(** [Layer.defaultProps]. The array of [outFields], the array of
    [highlight] and the function of [onLoad] are objects of their own. *)
Definition defaultProps : Obj :=
  [ ("children", VNull); ("url", VNull); ("portalItem", VNull);
    ("visible", VBool true); ("selectable", VBool false);
    ("relatedLayer", VNull); ("definitionExpression", VNull);
    ("renderer", VNull); ("rendererJson", VNull); ("labelingInfo", VNull);
    ("labelsVisible", VBool false); ("outFields", VArr 100 [VStr "*"]);
    ("elevationInfo", VNull); ("geometryType", VNull); ("hasZ", VBool false);
    ("fields", VNull); ("objectIdField", VNull); ("objectIdFilter", VNull);
    ("spatialReference", VNull); ("refresh", VNull);
    ("highlight", VArr 101 []); ("opacity", VNull); ("minScale", VNull);
    ("maxScale", VNull); ("featureReduction", VNull); ("source", VNull);
    ("legendEnabled", VBool true); ("title", VNull);
    ("maskingGeometry", VNull); ("popupEnabled", VBool false);
    ("popupTemplate", VNull); ("onLoad", VFun 102 0 "() => null") ].

(** The props React hands to the component for the props [user] of the
    element: a prop that is [undefined] takes its default value. *)
Definition resolve (defaults user : Obj) : Obj :=
  fold_left
    (fun p d =>
       if strict_eqb (get p (fst d)) VUndefined then set p (fst d) (snd d)
       else p)
    defaults user.

Definition with_defaults (user : Obj) : Obj := resolve defaultProps user.

(** The value a prop has once the defaults are resolved. *)
Definition effective (user : Obj) (k : string) : value :=
  if strict_eqb (get user k) VUndefined then get defaultProps k
  else get user k.

(** The two filters of [getLayerSettings] in one. *)
Definition kept (props : Obj) (k : string) : bool :=
  not_pointcloud_opacity props k && present props k.

(** Letter case of the characters of a string. *)
Definition upper_ascii (c : ascii) : ascii :=
  if Uuid.between "a" "z" c then ascii_of_nat (nat_of_ascii c - 32) else c.

Definition lower_ascii (c : ascii) : ascii := Uuid.fold_case c.

Fixpoint map_chars (f : ascii -> ascii) (s : string) : string :=
  match s with
  | EmptyString => EmptyString
  | String c s' => String (f c) (map_chars f s')
  end.

(** The calls of a trace that only [load] makes. *)
Definition own_calls (tr : list Event) : list Event :=
  filter (fun e => negb (from_react e)) tr.

(** How the stretch of [load] that follows the second liveness check
    ends: before [setState]; in the render that follows the [setState] of
    a highlight set; or after the [setState] of the handle, with or
    without a highlight set passed to [setState] before and with or
    without the completion callback called. *)
Inductive ReadyEnd :=
| Failed
| Interrupted (hs : HighlightSet)
| Stored (hs : option HighlightSet) (called : bool).

(** How far a run of [load] gets once it has looked for a handle. *)
Inductive Stage :=
| Stopped
| ViewRejected
| Aborted
| Ready (r : ReadyEnd).

Definition ready_calls (l : Handle) (lv : LayerView) (r : ReadyEnd)
  : list Event :=
  ELayerWhen l ::
  match r with
  | Failed => []
  | Interrupted hs => [ESetState (PHighlights hs)]
  | Stored hs called =>
      match hs with Some h => [ESetState (PHighlights h)] | None => [] end
      ++ [ESetState (PLayer l lv)]
      ++ (if called then [EOnLoad l] else [])
  end.

Definition stage_calls (v : View) (l : Handle) (lv : LayerView) (s : Stage)
  : list Event :=
  match s with
  | Stopped => []
  | ViewRejected => [EMapAdd v l; EWhenLayerView v l]
  | Aborted => [EMapAdd v l; EWhenLayerView v l; EMapRemove v l]
  | Ready r => [EMapAdd v l; EWhenLayerView v l] ++ ready_calls l lv r
  end.

(** The call of the loader, made when no handle is found by [id]. *)
Definition loader_call (v : View) (settings : Obj) : list Event :=
  match existing_layer v settings with
  | Some _ => []
  | None => [ELoadLayer settings]
  end.

(** The instance holds neither a handle, nor a view object, nor a
    highlight set: its state between the constructor and the end of
    [load]. *)
Definition idle (w : World) : Prop :=
  layer (state w) = None
  /\ layerView (state w) = None
  /\ highlights (state w) = None.

(** The number of [Unmount] among the actions of React. *)
Definition unmounts (acts : list Action) : nat :=
  List.length (filter (fun a => match a with Unmount => true | _ => false end)
                      acts).

(** A handle has been obtained and the component is still mounted at the
    first liveness check of [load]. *)
Definition obtained (sch : Schedule) (v : View) (settings : Obj) (l : Handle)
  : Prop :=
  existing_layer v settings = Some l
  \/ (existing_layer v settings = None
      /\ loadLayer_result sch = Resolves (Some l)
      /\ ~ In Unmount (during_loadLayer sch)).




(** *** More sample data *)

Definition loader_rejects : Schedule :=
  mkSchedule Rejects [] (Resolves layerView_a) [] (Resolves tt) []
             (Resolves tt) [].

Definition loader_finds_nothing : Schedule :=
  mkSchedule (Resolves None) [] (Resolves layerView_a) [] (Resolves tt) []
             (Resolves tt) [].

Definition view_rejects : Schedule :=
  mkSchedule (Resolves (Some layer_a)) [] Rejects [] (Resolves tt) []
             (Resolves tt) [].

Definition when_rejects : Schedule :=
  mkSchedule (Resolves (Some layer_a)) [] (Resolves layerView_a) [] Rejects []
             (Resolves tt) [].

End LayerMore.

(* ================================================================= *)
(** ** The DrawingTool component: mount, updates and the event handlers *)

Module Sketch.
Import Eff Eff.Notations DrawingTool.
Local Open Scope eff_scope.

(** [props.geometry] when it is not null: its identity, [geometry.type]
    and whether [geometry.reset] is truthy. *)
Record Geometry := mkGeometry { gref : nat; gtype : value; greset : bool }.

(** A graphic of the engine: its identity and [graphic.geometry]. *)
Record SketchGraphic := mkSketchGraphic { sgref : nat; sgeometry : Geometry }.

(** [this.model.pointSymbol], [polygonSymbol], [polylineSymbol]. *)
Inductive Symbol := pointSymbol | polygonSymbol | polylineSymbol.

(** The event streams of the model: ['create'] and ['update']. *)
Inductive Stream := StreamCreate | StreamUpdate.

(** What [model.update] is given: [this.layer.graphics.items[0]], or the
    graphic of an event. *)
Inductive Target :=
| FirstGraphic (l : nat)
| ThisGraphic (g : SketchGraphic).

(** The calls of the component outside its teardown; the calls the
    teardown also makes are those of [Call]. *)
Inductive Op :=
| OLoadModules                                  (* esriLoader.loadModules([...]) *)
| ONewGraphicsLayer (l : nat)                   (* new GraphicsLayer() *)
| OMapAdd (v l : nat)                           (* view.map.add(this.layer) *)
| ONewSketchViewModel (m l v : nat)             (* new SketchViewModel({layer, view}) *)
| OOn (m : nat) (s : Stream) (sub : nat)        (* this.model.on(stream, handler) *)
| OGraphicsAdd (l : nat) (g : Geometry) (m : nat) (sym : Symbol)
                                                (* this.layer.graphics.add({geometry, symbol}) *)
| OModelUpdate (m : nat) (t : Target)           (* this.model.update(t, {tool: 'reshape'}) *)
| OModelCreate (m : nat) (geometryType mode : value)
                                                (* this.model.create(geometryType, {mode}) *)
| OGraphicsRemoveAll (l : nat)                  (* this.layer.graphics.removeAll() *)
| OOnDraw (g : Geometry) (area : Z)             (* this.props.onDraw({geometry, area}) *)
| OCall (c : Call).

(** [this.props]: [view], [geometry] (null is [None]), [geometryType],
    [mode]; [onDraw] is a function. *)
Record ToolProps := mkToolProps {
  pview : nat;
  pgeometry : option Geometry;
  pgeometryType : value;
  pmode : value
}.

(** The instance: the fields and the teardown calls of [Tool] (its [view]
    is [this.props.view]), the rest of the props, the other calls made
    so far, and the name of the next object the engine creates. *)
Record Editor := mkEditor {
  tool : Tool;
  eprops : ToolProps;
  ops : list Op;
  next : nat
}.

Definition op (o : Op) : M Editor unit :=
  modify (fun e => mkEditor (tool e) (eprops e) (ops e ++ [o]) (next e)).

Definition new_id : M Editor nat :=
  e <- getS ;;
  modify (fun e => mkEditor (tool e) (eprops e) (ops e) (S (next e))) ;;
  ret (next e).

Definition set_tool (f : Tool -> Tool) : M Editor unit :=
  modify (fun e => mkEditor (f (tool e)) (eprops e) (ops e) (next e)).

Definition set_layer (l : nat) : M Editor unit :=
  set_tool (fun t => mkTool (onCreate t) (onUpdate t) (model t) (Some l)
                            (view t) (calls t)).

Definition set_model (m : nat) : M Editor unit :=
  set_tool (fun t => mkTool (onCreate t) (onUpdate t) (Some m) (layer t)
                            (view t) (calls t)).

Definition set_onCreate (s : nat) : M Editor unit :=
  set_tool (fun t => mkTool (Some s) (onUpdate t) (model t) (layer t)
                            (view t) (calls t)).

Definition set_onUpdate (s : nat) : M Editor unit :=
  set_tool (fun t => mkTool (onCreate t) (Some s) (model t) (layer t)
                            (view t) (calls t)).

(** React gives the instance new props. *)
Definition set_props (p : ToolProps) : M Editor unit :=
  modify (fun e =>
            mkEditor (mkTool (onCreate (tool e)) (onUpdate (tool e))
                             (model (tool e)) (layer (tool e)) (pview p)
                             (calls (tool e)))
                     p (ops e) (next e)).

(** [isValidGeometry(geometry)], as a condition. *)
Definition isValidGeometry (geometry : option Geometry) : bool :=
  match geometry with
  | None => false
  | Some g =>
      existsb (strict_eqb (gtype g))
              [VStr "point"; VStr "multipoint"; VStr "polyline"; VStr "polygon"]
  end.

(** [getSymbol(type)] *)
Definition getSymbol (type : value) : M Editor (nat * Symbol) :=
  e <- getS ;;
  match model (tool e) with
  | None => throw TypeError
  | Some m =>
      ret (m,
           if strict_eqb type (VStr "point") || strict_eqb type (VStr "multipoint")
           then pointSymbol
           else if strict_eqb type (VStr "polygon") then polygonSymbol
           else if strict_eqb type (VStr "polyline") then polylineSymbol
           else polygonSymbol)
  end.

(** [setGraphic(geometry)] *)
Definition setGraphic (geometry : Geometry) : M Editor unit :=
  e <- getS ;;
  match layer (tool e) with
  | None => throw TypeError
  | Some l =>
      sym <- getSymbol (gtype geometry) ;;
      op (OGraphicsAdd l geometry (fst sym) (snd sym)) ;;
      e <- getS ;;
      match model (tool e), layer (tool e) with
      | Some m, Some l' => op (OModelUpdate m (FirstGraphic l'))
      | _, _ => throw TypeError
      end
  end.

(** [resetGraphic()] *)
Definition resetGraphic : M Editor unit :=
  e <- getS ;;
  match model (tool e) with
  | None => throw TypeError
  | Some m =>
      op (OCall (CCancel m)) ;;
      match layer (tool e) with
      | None => throw TypeError
      | Some l => op (OGraphicsRemoveAll l)
      end
  end.

(** [createGraphic()] *)
Definition createGraphic : M Editor unit :=
  e <- getS ;;
  match model (tool e) with
  | None => throw TypeError
  | Some m => op (OModelCreate m (pgeometryType (eprops e)) (pmode (eprops e)))
  end.

(** [onCancel()] *)
Definition onCancel : M Editor unit :=
  e <- getS ;;
  match pgeometry (eprops e) with
  | Some g => if greset g then ret tt else createGraphic
  | None => createGraphic
  end.

(** An event of the ['create'] stream: [event.state], [event.graphic]. *)
Record CreateEvent := mkCreateEvent {
  cstate : value;
  cgraphic : option SketchGraphic
}.

(** An event of the ['update'] stream: [event.state], [event.graphics]. *)
Record UpdateEvent := mkUpdateEvent {
  ustate : value;
  ugraphics : list SketchGraphic
}.

(** The handler [componentDidMount] subscribes to ['create']. *)
Definition on_create (event : CreateEvent) : M Editor unit :=
  if strict_eqb (cstate event) (VStr "complete")
  then
    match cgraphic event with
    | None => throw TypeError
    | Some graphic =>
        op (OOnDraw (sgeometry graphic) 1) ;;
        e <- getS ;;
        match model (tool e) with
        | None => throw TypeError
        | Some m => op (OModelUpdate m (ThisGraphic graphic))
        end
    end
  else if strict_eqb (cstate event) (VStr "cancel") then onCancel
  else ret tt.

(** The handler [componentDidMount] subscribes to ['update']. *)
Definition on_update (event : UpdateEvent) : M Editor unit :=
  if strict_eqb (ustate event) (VStr "active")
     || strict_eqb (ustate event) (VStr "complete")
  then
    match ugraphics event with
    | [] => throw TypeError
    | graphic :: _ => op (OOnDraw (sgeometry graphic) 1)
    end
  else ret tt.

(** [componentDidUpdate(prevProps)] *)
Definition componentDidUpdate (prevProps : ToolProps) : M Editor unit :=
  e <- getS ;;
  let geometry := pgeometry (eprops e) in
  match model (tool e) with
  | None => ret tt
  | Some _ =>
      match pgeometry prevProps, geometry with
      | Some _, None => resetGraphic ;; createGraphic
      | _, _ =>
          match geometry with
          | Some g =>
              if isValidGeometry geometry && greset g
              then resetGraphic ;; setGraphic g
              else ret tt
          | None => ret tt
          end
      end
  end.

(** React renders the component with new props. *)
Definition update (p : ToolProps) : M Editor unit :=
  e <- getS ;;
  set_props p ;;
  componentDidUpdate (eprops e).

(** [componentWillUnmount()], as modelled for the teardown. *)
Definition unmount (raises : Call -> bool) : M Editor unit :=
  fun e =>
    let (o, t) := DrawingTool.componentWillUnmount raises (tool e) in
    (o, mkEditor t (eprops e) (ops e) (next e)).

(** What React may do while the engine modules are loaded. *)
Inductive ToolAction :=
| TUnmount
| TUpdate (p : ToolProps).

Definition tool_act (raises : Call -> bool) (a : ToolAction) (e : Editor)
  : Editor :=
  match a with
  | TUnmount => snd (unmount raises e)
  | TUpdate p => snd (update p e)
  end.

Definition tool_interfere (raises : Call -> bool) (acts : list ToolAction)
  (e : Editor) : Editor :=
  fold_left (fun e a => tool_act raises a e) acts e.

(** [async componentDidMount()]: [view] and [geometry] are read before
    the await, the other props when they are used. *)
Definition componentDidMount (raises : Call -> bool)
  (modules : Layer.promise unit) (during : list ToolAction) : M Editor unit :=
  e <- getS ;;
  let view := view (tool e) in
  let geometry := pgeometry (eprops e) in
  op OLoadModules ;;
  modify (tool_interfere raises during) ;;
  match modules with
  | Layer.Rejects => throw Rejection
  | Layer.Resolves _ =>
      l <- new_id ;;
      op (ONewGraphicsLayer l) ;;
      set_layer l ;;
      op (OMapAdd view l) ;;
      m <- new_id ;;
      op (ONewSketchViewModel m l view) ;;
      set_model m ;;
      sc <- new_id ;;
      op (OOn m StreamCreate sc) ;;
      set_onCreate sc ;;
      su <- new_id ;;
      op (OOn m StreamUpdate su) ;;
      set_onUpdate su ;;
      match geometry with
      | Some g => if isValidGeometry geometry then setGraphic g else createGraphic
      | None => createGraphic
      end
  end.

(** The instance before [componentDidMount]. *)
Definition fresh_editor (p : ToolProps) : Editor :=
  mkEditor (uninitialized (pview p)) p [] 0.

(** *** Notions the properties are stated with *)

(** None of the fields [componentDidMount] assigns is set. *)
Definition unset (e : Editor) : Prop :=
  onCreate (tool e) = None /\ onUpdate (tool e) = None
  /\ model (tool e) = None /\ layer (tool e) = None.

(** The props after the updates among the actions of React. *)
Definition props_after (acts : list ToolAction) (p : ToolProps) : ToolProps :=
  fold_left (fun p a => match a with TUpdate p' => p' | TUnmount => p end)
            acts p.

(** The symbol of a geometry type. *)
Definition symbol_of (type : value) : Symbol :=
  if strict_eqb type (VStr "point") || strict_eqb type (VStr "multipoint")
  then pointSymbol
  else if strict_eqb type (VStr "polyline") then polylineSymbol
  else polygonSymbol.

(** The calls that install a geometry, and the call that starts a
    drawing session. *)
Definition install_calls (l m : nat) (g : Geometry) : list Op :=
  [OGraphicsAdd l g m (symbol_of (gtype g)); OModelUpdate m (FirstGraphic l)].

Definition draw_calls (m : nat) (p : ToolProps) : list Op :=
  [OModelCreate m (pgeometryType p) (pmode p)].


(** The calls of a mount from the instance [e], the modules loaded. *)
Definition mount_ops (e : Editor) (p' : ToolProps) : list Op :=
  let l := next e in
  let m := S (next e) in
  let v := view (tool e) in
  [ ONewGraphicsLayer l; OMapAdd v l; ONewSketchViewModel m l v;
    OOn m StreamCreate (S (S (next e)));
    OOn m StreamUpdate (S (S (S (next e)))) ]
  ++ match pgeometry (eprops e) with
     | Some g =>
         if isValidGeometry (Some g) then install_calls l m g
         else draw_calls m p'
     | None => draw_calls m p'
     end.

(** [e] after the calls [os]. *)
Definition add_ops (e : Editor) (os : list Op) : Editor :=
  mkEditor (tool e) (eprops e) (ops e ++ os) (next e).

(** [e] with the props [p]. *)
Definition with_props (e : Editor) (p : ToolProps) : Editor :=
  mkEditor (mkTool (onCreate (tool e)) (onUpdate (tool e)) (model (tool e))
                   (layer (tool e)) (pview p) (calls (tool e)))
           p (ops e) (next e).

(** [view] of the instance is the view of its props. *)
Definition consistent (e : Editor) : Prop := view (tool e) = pview (eprops e).


(** The instance is fully initialized. *)
Definition initialized (e : Editor) (sc su m l : nat) : Prop :=
  onCreate (tool e) = Some sc /\ onUpdate (tool e) = Some su
  /\ model (tool e) = Some m /\ layer (tool e) = Some l.

(** Sample props. *)
Definition polygon_a : Geometry := mkGeometry 1 (VStr "polygon") false.

Definition props_polygon : ToolProps :=
  mkToolProps 0 (Some polygon_a) (VStr "polygon") (VStr "click").

Definition props_empty : ToolProps :=
  mkToolProps 0 None (VStr "polygon") (VStr "click").

End Sketch.

(* ================================================================= *)
(** * Properties *)

(** ** Objects *)

Module ObjFacts.

Lemma strict_eqb_null v : strict_eqb v VNull = true <-> v = VNull.
Proof. destruct v; simpl; split; intro H; congruence. Qed.

Lemma strict_eqb_undefined v : strict_eqb v VUndefined = true <-> v = VUndefined.
Proof. destruct v; simpl; split; intro H; congruence. Qed.

Lemma strict_eqb_str v s : strict_eqb v (VStr s) = true <-> v = VStr s.
Proof.
  destruct v; simpl; split; intro H; try congruence.
  - apply String.eqb_eq in H. now subst.
  - injection H as ->. apply String.eqb_refl.
Qed.

Lemma set_fresh_key (o : Obj) k v :
  ~ In k (keys o) -> set o k v = o ++ [(k, v)].
Proof.
  induction o as [|[k' v'] o IH]; simpl; intro H; [reflexivity|].
  destruct (String.eqb_spec k' k) as [->|_].
  - exfalso. apply H. now left.
  - rewrite IH; [reflexivity|]. intro Hin. apply H. now right.
Qed.

Lemma fold_set_fresh (f : string -> value) (ks : list string) :
  forall acc : Obj,
    NoDup ks -> (forall k, In k ks -> ~ In k (keys acc)) ->
    fold_left (fun o k => set o k (f k)) ks acc
    = acc ++ map (fun k => (k, f k)) ks.
Proof.
  induction ks as [|k ks IH]; simpl; intros acc Hnd Hdisj.
  - now rewrite app_nil_r.
  - inversion Hnd as [|? ? Hk Hnd']; subst.
    rewrite set_fresh_key by (apply Hdisj; now left).
    rewrite IH; [now rewrite <- app_assoc|assumption|].
    intros k' Hk'. unfold keys. rewrite map_app, in_app_iff. simpl.
    intros [Hin|[->|[]]].
    + apply (Hdisj k'); [now right|exact Hin].
    + contradiction.
Qed.

Lemma keys_tabulate (f : string -> value) ks :
  keys (map (fun k => (k, f k)) ks) = ks.
Proof. unfold keys. rewrite map_map. simpl. apply map_id. Qed.

Lemma get_tabulate (f : string -> value) ks k :
  In k ks -> get (map (fun k => (k, f k)) ks) k = f k.
Proof.
  induction ks as [|k' ks IH]; simpl; [tauto|].
  intros H. destruct (String.eqb_spec k' k) as [->|Hne]; [reflexivity|].
  destruct H as [H|H]; [contradiction|now apply IH].
Qed.

End ObjFacts.

(** ** Settings Extractor *)

Module SettingsFacts.
Import Settings ObjFacts.

Lemma layerSettingsProps_NoDup : NoDup layerSettingsProps.
Proof.
  replace layerSettingsProps with (nodup string_dec layerSettingsProps)
    by reflexivity.
  apply NoDup_nodup.
Qed.

Lemma getLayerSettings_tabulate props :
  getLayerSettings props
  = map (fun k => (k, get props k))
        (filter (present props)
           (filter (not_pointcloud_opacity props) layerSettingsProps)).
Proof.
  unfold getLayerSettings.
  rewrite fold_set_fresh; [reflexivity| |intros ? ? []].
  do 2 apply NoDup_filter. apply layerSettingsProps_NoDup.
Qed.

Lemma present_spec props k :
  present props k = true <-> get props k <> VNull /\ get props k <> VUndefined.
Proof.
  unfold present. rewrite andb_true_iff, !negb_true_iff.
  rewrite <- !not_true_iff_false, strict_eqb_null, strict_eqb_undefined.
  tauto.
Qed.

Lemma not_pointcloud_opacity_spec props k :
  not_pointcloud_opacity props k = true
  <-> ~ (get props "layerType" = VStr "point-cloud" /\ k = "opacity").
Proof.
  unfold not_pointcloud_opacity.
  rewrite orb_true_iff, !negb_true_iff, <- !not_true_iff_false.
  rewrite strict_eqb_str, String.eqb_eq.
  destruct (String.eqb_spec k "opacity"); [|tauto].
  destruct (strict_eqb (get props "layerType") (VStr "point-cloud")) eqn:E.
  - apply strict_eqb_str in E. tauto.
  - assert (get props "layerType" <> VStr "point-cloud").
    { intro H. apply strict_eqb_str in H. congruence. }
    tauto.
Qed.

(** C7. For every props object, the output of the Settings Extractor has
    exactly the recognized keys whose value in the props is neither null
    nor undefined, [opacity] left out whenever [layerType] is
    [point-cloud]; each key carries the value the props give it, and no
    key appears twice. The extractor is a total function of the props. *)
Theorem getLayerSettings_exact (props : Obj) :
  (forall k,
      In k (keys (getLayerSettings props)) <->
      In k layerSettingsProps
      /\ get props k <> VNull /\ get props k <> VUndefined
      /\ ~ (get props "layerType" = VStr "point-cloud" /\ k = "opacity"))
  /\ (forall k, In k (keys (getLayerSettings props)) ->
                get (getLayerSettings props) k = get props k)
  /\ (forall k, ~ In k (keys (getLayerSettings props)) ->
                get (getLayerSettings props) k = VUndefined)
  /\ NoDup (keys (getLayerSettings props)).
Proof.
  rewrite getLayerSettings_tabulate, keys_tabulate.
  repeat split.
  - rewrite !filter_In, present_spec, not_pointcloud_opacity_spec in H. tauto.
  - rewrite !filter_In, present_spec, not_pointcloud_opacity_spec in H. tauto.
  - rewrite !filter_In, present_spec, not_pointcloud_opacity_spec in H. tauto.
  - rewrite !filter_In, present_spec, not_pointcloud_opacity_spec in H. tauto.
  - intros (H1 & H2 & H3 & H4).
    rewrite !filter_In, present_spec, not_pointcloud_opacity_spec. tauto.
  - intros k Hk. now apply get_tabulate.
  - intros k Hk. induction (filter _ _) as [|k' ks IH]; simpl; [reflexivity|].
    destruct (String.eqb_spec k' k) as [->|Hne].
    + exfalso. apply Hk. now left.
    + apply IH. intro. apply Hk. now right.
  - do 2 apply NoDup_filter. apply layerSettingsProps_NoDup.
Qed.

End SettingsFacts.

(** ** Highlight Resolver *)

Module UuidFacts.
Import Uuid.

Ltac each_ascii c :=
  destruct c as [[] [] [] [] [] [] [] []].

Lemma member_In l c : member l c = true <-> In c (list_ascii_of_string l).
Proof.
  unfold member. rewrite existsb_exists. split.
  - intros (x & Hx & E). apply Ascii.eqb_eq in E. now subst.
  - intros H. exists c. split; [assumption|apply Ascii.eqb_refl].
Qed.

Lemma in_class_hex c : in_class CHex c = member "0123456789abcdefABCDEF" c.
Proof. each_ascii c; reflexivity. Qed.

Lemma in_class_version c : in_class CVersion c = member "12345" c.
Proof. each_ascii c; reflexivity. Qed.

Lemma in_class_variant c : in_class CVariant c = member "89abAB" c.
Proof. each_ascii c; reflexivity. Qed.

Lemma in_class_dash c : in_class CDash c = Ascii.eqb c "-".
Proof. each_ascii c; reflexivity. Qed.

Lemma append_nil_r (s : string) : (s ++ "")%string = s.
Proof. induction s as [|c s IH]; simpl; [reflexivity|now rewrite IH]. Qed.

Lemma match_rep_sound k n : forall s rest,
  match_rep k n s = Some rest ->
  exists g, s = (g ++ rest)%string /\ String.length g = n /\ all_in k g.
Proof.
  induction n as [|n IH]; simpl; intros s rest H.
  - injection H as ->. exists ""%string. repeat split. constructor.
  - destruct s as [|c s]; [discriminate|].
    destruct (in_class k c) eqn:Ec; [|discriminate].
    destruct (IH _ _ H) as (g & -> & Hlen & Hall).
    exists (String c g). simpl. repeat split; [congruence|].
    constructor; assumption.
Qed.

Lemma match_rep_complete k : forall g rest,
  all_in k g -> match_rep k (String.length g) (g ++ rest) = Some rest.
Proof.
  induction g as [|c g IH]; simpl; intros rest H; [reflexivity|].
  inversion H; subst. rewrite H2. now apply IH.
Qed.

Lemma match_rep_group k n g rest :
  String.length g = n -> all_in k g -> match_rep k n (g ++ rest) = Some rest.
Proof. intros <-. apply match_rep_complete. Qed.

Lemma match_rep_one k c s :
  in_class k c = true -> match_rep k 1 (String c s) = Some s.
Proof. intros H. simpl. now rewrite H. Qed.

Lemma all_in_hex n g :
  String.length g = n /\ all_in CHex g <-> hex_group n g.
Proof.
  unfold hex_group, all_in, is_hex.
  split; intros [Hl Ha]; split; try assumption;
    eapply Forall_impl; try exact Ha; intros c Hc; cbv beta in *.
  - rewrite in_class_hex in Hc. now apply member_In.
  - rewrite in_class_hex. now apply member_In.
Qed.

Lemma single k g :
  String.length g = 1 -> all_in k g ->
  exists c, g = String c "" /\ in_class k c = true.
Proof.
  destruct g as [|c [|c' g]]; simpl; try discriminate.
  intros _ H. inversion H; subst. now exists c.
Qed.

Lemma dash_string g :
  String.length g = 1 -> all_in CDash g -> g = "-"%string.
Proof.
  intros Hl Ha. destruct (single _ _ Hl Ha) as (c & -> & Hc).
  rewrite in_class_dash in Hc. apply Ascii.eqb_eq in Hc. now subst.
Qed.

Lemma all_in_dash : all_in CDash "-".
Proof. repeat constructor. Qed.

(** The pattern of the source accepts exactly the strings of the
    canonical UUID shape. *)
Lemma match_seq_uuid_shape s : match_seq pattern s = true <-> uuid_shape s.
Proof.
  unfold pattern, uuid_shape. split.
  - cbn [match_seq]. intros H.
    repeat match type of H with
    | match match_rep ?k ?n ?x with _ => _ end = true =>
        let E := fresh "E" in
        let r := fresh "r" in
        destruct (match_rep k n x) as [r|] eqn:E; [|discriminate H];
        apply match_rep_sound in E;
        let g := fresh "g" in
        let Hl := fresh "Hl" in
        let Ha := fresh "Ha" in
        destruct E as (g & -> & Hl & Ha)
    end.
    apply String.eqb_eq in H. subst.
    apply dash_string in Ha0, Ha2, Ha5, Ha8; trivial. subst.
    destruct (single _ _ Hl3 Ha3) as (ver & -> & Hver).
    destruct (single _ _ Hl6 Ha6) as (var & -> & Hvar).
    exists g, g1, ver, g4, var, g7, g9.
    rewrite <- !all_in_hex.
    rewrite in_class_version in Hver. rewrite in_class_variant in Hvar.
    apply member_In in Hver, Hvar.
    repeat split; try assumption.
    simpl. now rewrite append_nil_r.
  - intros (g1 & g2 & ver & g3 & var & g4 & g5 & -> & H1 & H2 & Hver & H3
            & Hvar & H4 & H5).
    apply all_in_hex in H1, H2, H3, H4, H5.
    destruct H1 as [L1 A1], H2 as [L2 A2], H3 as [L3 A3], H4 as [L4 A4],
             H5 as [L5 A5].
    apply member_In in Hver, Hvar.
    rewrite <- in_class_version in Hver. rewrite <- in_class_variant in Hvar.
    cbn [match_seq].
    rewrite (match_rep_group CHex _ g1) by assumption.
    change (match_rep CDash 1 ("-" ++ ?x)) with (Some x).
    cbv iota.
    rewrite (match_rep_group CHex _ g2) by assumption.
    change (match_rep CDash 1 ("-" ++ ?x)) with (Some x).
    cbv iota.
    change (String ver g3 ++ ?x)%string with (String ver (g3 ++ x)).
    rewrite (match_rep_one _ _ _ Hver). cbv iota.
    rewrite (match_rep_group CHex _ g3) by assumption.
    change (match_rep CDash 1 ("-" ++ ?x)) with (Some x).
    cbv iota.
    change (String var g4 ++ ?x)%string with (String var (g4 ++ x)).
    rewrite (match_rep_one _ _ _ Hvar). cbv iota.
    rewrite (match_rep_group CHex _ g4) by assumption.
    change (match_rep CDash 1 ("-" ++ ?x)) with (Some x).
    cbv iota.
    rewrite <- (append_nil_r g5).
    rewrite (match_rep_group CHex _ g5) by assumption.
    reflexivity.
Qed.

Lemma chars_app (a b : string) :
  list_ascii_of_string (a ++ b)
  = list_ascii_of_string a ++ list_ascii_of_string b.
Proof. induction a as [|c a IH]; simpl; [reflexivity|now rewrite IH]. Qed.

Lemma string_of_uint_digits d : digits_only (NilEmpty.string_of_uint d).
Proof. induction d; simpl; constructor; (reflexivity || assumption). Qed.

Lemma digits_not_uuid s : digits_only s -> match_seq pattern s = false.
Proof.
  intros Hd. apply not_true_is_false. intros H.
  apply match_seq_uuid_shape in H.
  destruct H as (g1 & g2 & ver & g3 & var & g4 & g5 & -> & _).
  unfold digits_only in Hd. rewrite chars_app in Hd.
  apply Forall_app in Hd. destruct Hd as [_ Hd].
  simpl in Hd. inversion Hd as [|? ? Hc _]. discriminate Hc.
Qed.

Lemma minus_not_uuid s : match_seq pattern (String "-" s) = false.
Proof. reflexivity. Qed.

Lemma nilzero_digits d : digits_only (NilZero.string_of_uint d).
Proof.
  destruct d; try apply string_of_uint_digits.
  repeat constructor.
Qed.

(** The decimal text of a number never has the UUID shape. *)
Lemma test_number n : test (VNum n) = false.
Proof.
  unfold test.
  change (ToString (VNum n)) with (NilZero.string_of_int (Z.to_int n)).
  destruct n as [|p|p].
  - reflexivity.
  - apply digits_not_uuid, nilzero_digits.
  - apply minus_not_uuid.
Qed.

End UuidFacts.

Module HighlightFacts.
Import Uuid UuidFacts Highlight.

Lemma find_first_with_global_id gs gid :
  find (fun e => strict_eqb (get (attributes e) "GlobalID") gid) gs
  = first_with_global_id gs gid.
Proof.
  induction gs as [|g gs IH]; simpl; [reflexivity|].
  now destruct (strict_eqb _ _).
Qed.

Lemma resolve_one_ok lv m :
  resolve_one lv m
    (if test (id_value m) then getOIDfromGlobalId lv (id_value m)
     else id_value m).
Proof.
  unfold resolve_one, test, getOIDfromGlobalId.
  rewrite find_first_with_global_id.
  destruct (match_seq pattern (ToString (id_value m))) eqn:E.
  - split.
    + intros _. now destruct (first_with_global_id _ _).
    + intros H. exfalso. apply H. now apply match_seq_uuid_shape.
  - split.
    + intros H. apply match_seq_uuid_shape in H. congruence.
    + reflexivity.
Qed.

(** C8. For every ordered sequence of MysteryId, the Highlight Resolver
    answers a sequence of the same length and order in which each id of
    the canonical UUID shape is replaced by the native row identifier of
    the first loaded graphic whose global identifier equals it, or by
    null when there is none, and every other id is left as it is; a
    number is always left as it is; and the resolver maps the UUID
    3fa85f64-5717-4562-b3fc-2c963f66afa6 followed by 42, against one
    graphic with that global identifier and native id 7, to 7 followed
    by 42. *)
Theorem getHighlightOIDs_resolves :
  (forall (lv : LayerView) (ids : list MysteryId),
      Forall2 (resolve_one lv) ids
              (getHighlightOIDs lv (map id_value ids)))
  /\ (forall (lv : LayerView) (n : Z),
        getHighlightOIDs lv [id_value (IdNum n)] = [VNum n])
  /\ (forall (ref : nat) (hl : bool),
        getHighlightOIDs
          (mkLayerView ref
             [mkGraphic [("GlobalID", VStr "3fa85f64-5717-4562-b3fc-2c963f66afa6");
                         ("OBJECTID", VNum 7)]]
             "OBJECTID" hl)
          (map id_value [IdStr "3fa85f64-5717-4562-b3fc-2c963f66afa6"; IdNum 42])
        = [VNum 7; VNum 42]).
Proof.
  split; [|split].
  - intros lv ids. unfold getHighlightOIDs. rewrite map_map.
    induction ids as [|m ids IH]; simpl; constructor.
    + apply resolve_one_ok.
    + exact IH.
  - intros lv n. unfold getHighlightOIDs. simpl map.
    now rewrite test_number.
  - intros ref hl. reflexivity.
Qed.

End HighlightFacts.

(** ** The Layer component *)

Module LayerFacts.
Import Eff Eff.Notations Settings Highlight Layer ObjFacts.
Local Open Scope eff_scope.

(** *** Relations every step of a computation respects *)

Section Respects.
Variable R : World -> World -> Prop.
Hypothesis R_refl : forall w, R w w.
Hypothesis R_trans : forall a b c, R a b -> R b c -> R a c.

Lemma respects_ret A (a : A) : respects R (ret a).
Proof. intros w. apply R_refl. Qed.

Lemma respects_throw A e : respects R (@throw World A e).
Proof. intros w. apply R_refl. Qed.

Lemma respects_getS : respects R getS.
Proof. intros w. apply R_refl. Qed.

Lemma respects_modify f : (forall w, R w (f w)) -> respects R (modify f).
Proof. intros H w. apply H. Qed.

Lemma respects_bind A B (c : M World A) (k : A -> M World B) :
  respects R c -> (forall a, respects R (k a)) -> respects R (bind c k).
Proof.
  intros Hc Hk w. unfold bind. specialize (Hc w).
  destruct (c w) as [[a|e] w']; simpl in *; [|assumption].
  eapply R_trans; [exact Hc|apply Hk].
Qed.

Lemma respects_interfere (step : Action -> World -> World) acts :
  (forall a, In a acts -> forall w, R w (step a w)) ->
  forall w, R w (fold_left (fun w a => step a w) acts w).
Proof.
  induction acts as [|a acts IH]; simpl; intros H w; [apply R_refl|].
  eapply R_trans; [apply (H a); now left|].
  apply IH. intros b Hb. apply H. now right.
Qed.
End Respects.

Lemma grows_refl P w : grows P w w.
Proof. exists []. now rewrite app_nil_r. Qed.

Lemma grows_trans P a b c : grows P a b -> grows P b c -> grows P a c.
Proof.
  intros (es & E & F) (es' & E' & F'). exists (es ++ es').
  rewrite E', E, app_assoc. split; [reflexivity|]. apply Forall_app. now split.
Qed.

Lemma same_flag_refl a : same_flag a a.
Proof. reflexivity. Qed.

Lemma same_flag_trans a b c : same_flag a b -> same_flag b c -> same_flag a c.
Proof. unfold same_flag. congruence. Qed.

Lemma props_or_refl p a : props_or p a a.
Proof. now left. Qed.

Lemma props_or_trans p a b c : props_or p a b -> props_or p b c -> props_or p a c.
Proof. unfold props_or. intros [H|H] [H'|H']; rewrite H'; auto. Qed.

Create HintDb layer.
#[export] Hint Resolve grows_refl grows_trans same_flag_refl same_flag_trans
  props_or_refl props_or_trans : layer.

(** A single update of the world. *)
Ltac one_update :=
  let w := fresh "w" in
  intros w; unfold grows, same_flag, props_or; simpl;
  solve
    [ reflexivity
    | left; reflexivity
    | right; reflexivity
    | exists []; rewrite app_nil_r; split; [reflexivity|constructor]
    | eexists [_]; split; [reflexivity|repeat constructor; auto] ].

(** Splits a computation along its binds and its case distinctions. *)
Ltac respects_step :=
  match goal with
  | |- respects _ (bind _ _) =>
      apply respects_bind; [solve [eauto with layer]| |intros ?]
  | |- respects _ (ret _) => apply respects_ret; eauto with layer
  | |- respects _ (throw _) => apply respects_throw; eauto with layer
  | |- respects _ getS => apply respects_getS; eauto with layer
  | |- respects _ (modify _) => apply respects_modify; one_update
  | |- respects _ (emit _) => unfold emit
  | |- respects _ (set_mounted _) => unfold set_mounted
  | |- respects _ (set_props _) => unfold set_props
  | |- respects _ (set_state _) => unfold set_state
  | |- respects _ (setState _) => unfold setState
  | |- respects _ (engine_highlight _ _) => unfold engine_highlight
  | |- respects _ (getHighlightOIDs_of _ _) => unfold getHighlightOIDs_of
  | |- respects _ (if ?b then _ else _) => destruct b
  | |- respects _ (match ?x with _ => _ end) => destruct x
  | |- respects _ _ => solve [eauto with layer]
  end.

Ltac respects_all := cbv zeta; repeat respects_step.

(** *** What React's entry points do to the world *)

Lemma getDerivedStateFromProps_grows p st :
  respects (grows (fun e => from_react e = true)) (getDerivedStateFromProps p st).
Proof. unfold getDerivedStateFromProps. respects_all. Qed.

Lemma getDerivedStateFromProps_flag p st :
  respects same_flag (getDerivedStateFromProps p st).
Proof. unfold getDerivedStateFromProps. respects_all. Qed.

Lemma getDerivedStateFromProps_props q p st :
  respects (props_or q) (getDerivedStateFromProps p st).
Proof. unfold getDerivedStateFromProps. respects_all. Qed.

Lemma componentDidUpdate_grows prev :
  respects (grows (fun e => from_react e = true)) (componentDidUpdate prev).
Proof. unfold componentDidUpdate. respects_all. Qed.

Lemma componentDidUpdate_flag prev :
  respects same_flag (componentDidUpdate prev).
Proof. unfold componentDidUpdate. respects_all. Qed.

Lemma componentDidUpdate_props q prev :
  respects (props_or q) (componentDidUpdate prev).
Proof. unfold componentDidUpdate. respects_all. Qed.

#[export] Hint Resolve getDerivedStateFromProps_grows
  getDerivedStateFromProps_flag getDerivedStateFromProps_props
  componentDidUpdate_grows componentDidUpdate_flag componentDidUpdate_props
  : layer.

Lemma rerender_grows p :
  respects (grows (fun e => from_react e = true)) (rerender p).
Proof. unfold rerender. respects_all. Qed.

Lemma rerender_flag p : respects same_flag (rerender p).
Proof. unfold rerender. respects_all. Qed.

Lemma rerender_props p : respects (props_or p) (rerender p).
Proof. unfold rerender. respects_all. Qed.

Lemma componentWillUnmount_grows :
  respects (grows (fun e => from_react e = true)) componentWillUnmount.
Proof. unfold componentWillUnmount. respects_all. Qed.

Lemma componentWillUnmount_props q : respects (props_or q) componentWillUnmount.
Proof. unfold componentWillUnmount. respects_all. Qed.

Lemma componentWillUnmount_flag w :
  componentIsMounted (snd (componentWillUnmount w)) = false.
Proof.
  unfold componentWillUnmount, bind, emit, set_mounted, modify, getS, ret, throw.
  simpl. destruct (layer (state w)); [|reflexivity].
  destruct (hremoveAll h); simpl; now destruct (get (props w) "view").
Qed.

Lemma appends_refl P w : appends P w w.
Proof.
  exists []. split; [|constructor].
  destruct w. unfold add_events. simpl. now rewrite app_nil_r.
Qed.

Lemma appends_trans P a b c : appends P a b -> appends P b c -> appends P a c.
Proof.
  intros (es & -> & F) (es' & -> & F'). exists (es ++ es').
  split; [|apply Forall_app; now split].
  unfold add_events. simpl. now rewrite app_assoc.
Qed.

#[export] Hint Resolve appends_refl appends_trans : layer.

Lemma componentDidUpdate_appends prev :
  respects (appends not_highlight) (componentDidUpdate prev).
Proof.
  unfold componentDidUpdate. cbv zeta.
  repeat first
    [ match goal with
      | |- respects _ (emit ?e) =>
          intros w; exists [e]; split; [reflexivity|];
          constructor; [intros l; reflexivity|constructor]
      end
    | respects_step ].
Qed.

(** *** Interference while [load] is suspended *)

Lemma act_grows a w : grows (fun e => from_react e = true) w (act a w).
Proof.
  destruct a; simpl; [apply componentWillUnmount_grows|apply rerender_grows].
Qed.

Lemma interfere_grows acts w :
  grows (fun e => from_react e = true) w (interfere acts w).
Proof.
  apply (respects_interfere (grows (fun e => from_react e = true)));
    eauto using act_grows with layer.
Qed.

Lemma act_stays_unmounted a w :
  componentIsMounted w = false -> componentIsMounted (act a w) = false.
Proof.
  destruct a; simpl; intros H.
  - apply componentWillUnmount_flag.
  - now rewrite (rerender_flag nextProps w).
Qed.

Lemma interfere_stays_unmounted acts : forall w,
  componentIsMounted w = false -> componentIsMounted (interfere acts w) = false.
Proof.
  induction acts as [|a acts IH]; simpl; intros w H; [assumption|].
  apply IH. now apply act_stays_unmounted.
Qed.

Lemma interfere_unmounts acts : forall w,
  In Unmount acts -> componentIsMounted (interfere acts w) = false.
Proof.
  induction acts as [|a acts IH]; simpl; intros w H; [contradiction|].
  destruct H as [->|H]; [|now apply IH].
  apply interfere_stays_unmounted. apply componentWillUnmount_flag.
Qed.

Lemma interfere_keeps_flag acts : forall w,
  ~ In Unmount acts ->
  componentIsMounted (interfere acts w) = componentIsMounted w.
Proof.
  induction acts as [|a acts IH]; simpl; intros w H; [reflexivity|].
  rewrite IH by tauto. destruct a; [tauto|]. apply rerender_flag.
Qed.

Lemma interfere_props (Q : Obj -> Prop) acts : forall w,
  Q (props w) -> (forall p, rendered acts p -> Q p) ->
  Q (props (interfere acts w)).
Proof.
  unfold rendered.
  induction acts as [|a acts IH]; simpl; intros w H0 H; [assumption|].
  apply IH; [|intros p Hp; apply H; now right].
  destruct a; simpl.
  - destruct (componentWillUnmount_props (props w) w) as [E|E];
      now rewrite E.
  - destruct (rerender_props nextProps w) as [E|E]; rewrite E;
      [assumption|apply H; now left].
Qed.

(** *** Highlight sets *)

Lemma add_events_nil w : add_events w [] = w.
Proof. destruct w. unfold add_events. simpl. now rewrite app_nil_r. Qed.

Lemma add_events_app w es es' :
  add_events (add_events w es) es' = add_events w (es ++ es').
Proof. unfold add_events. simpl. now rewrite app_assoc. Qed.

Lemma emit_add_events e w : emit e w = (Done tt, add_events w [e]).
Proof. reflexivity. Qed.

(** The end of a derivation when the [&&] chain stops early. *)
Lemma release_only st w :
  (highlight <- @ret World _ (@None HighlightSet) ;;
   match highlights st with
   | Some old => emit (EHighlightRemove old)
   | None => ret tt
   end ;; ret highlight) w
  = (Done None, add_events w (release st)).
Proof.
  unfold release, bind, ret, emit, modify. simpl.
  destruct (highlights st); simpl; [reflexivity|now rewrite add_events_nil].
Qed.

(** A derivation installs at most one highlight set, and releases the
    previous one after it. *)
Lemma getDerivedStateFromProps_cases p st w :
  (exists lv ids,
      layerView st = Some lv /\
      getDerivedStateFromProps p st w
      = (Done (Some (fresh w)),
         mkWorld (componentIsMounted w) (props w) (state w)
                 (trace w ++ EHighlight lv (Ids ids) (fresh w) :: release st)
                 (S (fresh w))))
  \/ getDerivedStateFromProps p st w = (Done None, add_events w (release st))
  \/ getDerivedStateFromProps p st w = (Thrown TypeError, w).
Proof.
  pose proof (release_only st w) as Hnone.
  unfold getDerivedStateFromProps. cbv zeta.
  destruct (negb (truthy (get p "highlight"))); [now right; left|].
  destruct (negb (truthy (length_of (get p "highlight")))); [now right; left|].
  destruct (layerView st) as [lv|]; [|now right; left].
  destruct (negb (can_highlight lv)); [now right; left|].
  destruct (get p "highlight") as [| | | | | | |r elems|];
    try (right; right; reflexivity).
  left. exists lv, (getHighlightOIDs lv elems). split; [reflexivity|].
  unfold release, bind, ret, emit, modify, getHighlightOIDs_of, engine_highlight,
    getS. simpl.
  destruct (highlights st); simpl; rewrite <- ?app_assoc; reflexivity.
Qed.

(** C10. On every render in which the highlight prop is absent or empty,
    or the view object is not yet available, the derivation of the state
    calls [remove] on the highlight set the state holds, if there is one,
    makes no other call, and leaves no highlight set in the new state. *)
Theorem cleared_highlight_is_released (p : Obj) (st : State) (w : World) :
  highlight_absent_or_empty p \/ layerView st = None ->
  getDerivedStateFromProps p st w = (Done None, add_events w (release st)).
Proof.
  intros H.
  pose proof (release_only st w) as Hnone.
  unfold getDerivedStateFromProps. cbv zeta.
  destruct H as [[E|[E|[r E]]]|E]; try (rewrite E; exact Hnone).
  destruct (negb (truthy (get p "highlight"))); [exact Hnone|].
  destruct (negb (truthy (length_of (get p "highlight")))); [exact Hnone|].
  rewrite E. exact Hnone.
Qed.

(** At the inputs: an instance that holds the highlight set 0 is rendered
    with an empty highlight array. *)
Lemma cleared_highlight_is_released_witness :
  getDerivedStateFromProps (props_a view_empty)
    (mkState (Some layer_a) (Some layerView_a) (Some 0))
    (mkWorld true (props_a view_empty)
             (mkState (Some layer_a) (Some layerView_a) (Some 0)) [] 1)
  = (Done None,
     mkWorld true (props_a view_empty)
             (mkState (Some layer_a) (Some layerView_a) (Some 0))
             [EHighlightRemove 0] 1).
Proof.
  apply (cleared_highlight_is_released (props_a view_empty)).
  left. right. right. exists 3. reflexivity.
Defined.

(** *** [setState] and the render that follows it *)

Lemma strict_eqb_refl v : strict_eqb v v = true.
Proof.
  destruct v; simpl; auto using Bool.eqb_reflx, Z.eqb_refl, String.eqb_refl,
    Nat.eqb_refl.
Qed.

(** With the props it already has, [componentDidUpdate] finds no key
    that differs. *)
Lemma componentDidUpdate_unchanged w :
  componentDidUpdate (props w) w = (Done tt, w).
Proof.
  unfold componentDidUpdate, bind, getS. cbv iota beta.
  destruct (layer (state w)); [|reflexivity].
  destruct (find _ _) eqn:E; [|reflexivity].
  apply find_some in E. destruct E as [_ E].
  rewrite strict_eqb_refl in E. discriminate.
Qed.

Lemma setState_unmounted p w :
  componentIsMounted w = false ->
  setState p w = (Done tt, add_events w [ESetState p]).
Proof.
  intros H. unfold setState. unfold bind at 1. rewrite emit_add_events.
  cbv iota beta. unfold bind, getS. cbv iota beta.
  change (componentIsMounted (add_events w [ESetState p]))
    with (componentIsMounted w).
  rewrite H. reflexivity.
Qed.

(** The [setState] of a mounted instance, the render computed. *)
Lemma setState_mounted p w :
  componentIsMounted w = true ->
  setState p w
  = let merged := apply_patch p (state w) in
    match getDerivedStateFromProps (props w) merged
            (add_events w [ESetState p]) with
    | (Done newHighlights, w1) =>
        (Done tt,
         mkWorld (componentIsMounted w1) (props w1)
           (mkState (layer merged) (layerView merged) newHighlights)
           (trace w1) (fresh w1))
    | (Thrown e, w1) => (Thrown e, snd (componentWillUnmount w1))
    end.
Proof.
  intros H. unfold setState. unfold bind at 1. rewrite emit_add_events.
  cbv iota beta. unfold bind at 1, getS at 1. cbv iota beta.
  change (componentIsMounted (add_events w [ESetState p]))
    with (componentIsMounted w).
  change (props (add_events w [ESetState p])) with (props w).
  change (state (add_events w [ESetState p])) with (state w).
  rewrite H. change (negb true) with false. cbv iota beta zeta.
  pose proof (getDerivedStateFromProps_props (props w) (props w)
                (apply_patch p (state w)) (add_events w [ESetState p])) as Hp.
  destruct (getDerivedStateFromProps _ _ _) as [[hl|e] w1]; [|reflexivity].
  cbn [snd] in Hp.
  assert (Hprops : props w1 = props w) by (destruct Hp; assumption).
  unfold bind, set_state, modify, unawaited. cbv iota beta.
  rewrite <- Hprops.
  match goal with
  | |- (_, snd (componentDidUpdate _ ?w')) = _ =>
      change (componentDidUpdate (props w1) w')
        with (componentDidUpdate (props w') w');
      rewrite (componentDidUpdate_unchanged w')
  end.
  reflexivity.
Qed.

(** The three ways a [setState] of a mounted instance ends: the render
    installs a highlight set, or installs none, or throws, whereupon
    React unmounts the component. *)
Lemma setState_cases p w :
  componentIsMounted w = true ->
  let merged := apply_patch p (state w) in
  (exists lv ids,
      layerView merged = Some lv /\
      setState p w
      = (Done tt,
         mkWorld true (props w)
           (mkState (layer merged) (layerView merged) (Some (fresh w)))
           (trace w ++ ESetState p :: EHighlight lv (Ids ids) (fresh w)
                    :: release merged)
           (S (fresh w))))
  \/ setState p w
     = (Done tt,
        mkWorld true (props w) (mkState (layer merged) (layerView merged) None)
          (trace w ++ ESetState p :: release merged) (fresh w))
  \/ (fst (getDerivedStateFromProps (props w) merged
             (add_events w [ESetState p])) = Thrown TypeError
      /\ setState p w
         = (Thrown TypeError,
            snd (componentWillUnmount (add_events w [ESetState p])))).
Proof.
  intros H merged. rewrite (setState_mounted p w H). cbv zeta. fold merged.
  destruct (getDerivedStateFromProps_cases (props w) merged
              (add_events w [ESetState p]))
    as [(lv & ids & Hlv & E)|[E|E]]; rewrite E; cbv iota beta.
  - left. exists lv, ids. split; [exact Hlv|].
    simpl. rewrite H, <- app_assoc. reflexivity.
  - right. left. simpl. rewrite H, <- app_assoc. reflexivity.
  - right. right. split; reflexivity.
Qed.

(** A derivation that needs no [map], or has one. *)
Lemma getDerivedStateFromProps_installs p st lv w :
  highlight_mappable p ->
  layerView st = Some lv ->
  getDerivedStateFromProps p st w
  = (Done (match installs p lv (fresh w) with
           | [] => None
           | _ :: _ => Some (fresh w)
           end),
     mkWorld (componentIsMounted w) (props w) (state w)
       (trace w ++ installs p lv (fresh w) ++ release st)
       (fresh w + List.length (installs p lv (fresh w)))).
Proof.
  intros Hmap Hlv.
  assert (Hnone : installs p lv (fresh w) = [] ->
            (highlight <- @ret World _ (@None HighlightSet) ;;
             match highlights st with
             | Some old => emit (EHighlightRemove old)
             | None => ret tt
             end ;; ret highlight) w
            = (Done (match installs p lv (fresh w) with
                     | [] => None
                     | _ :: _ => Some (fresh w)
                     end),
               mkWorld (componentIsMounted w) (props w) (state w)
                 (trace w ++ installs p lv (fresh w) ++ release st)
                 (fresh w + List.length (installs p lv (fresh w))))).
  { intros ->. rewrite (release_only st w). simpl. now rewrite Nat.add_0_r. }
  unfold getDerivedStateFromProps. cbv zeta. rewrite Hlv.
  destruct (truthy (get p "highlight")) eqn:Ht; cbn [negb]; cbv iota.
  2:{ apply Hnone. unfold installs.
      destruct (get p "highlight") as [| | | | | | |r [|id ids]|]; try reflexivity.
      discriminate Ht. }
  destruct (truthy (length_of (get p "highlight"))) eqn:Hlen; cbn [negb];
    cbv iota.
  2:{ apply Hnone. unfold installs.
      destruct (get p "highlight") as [| | | | | | |r [|id ids]|]; try reflexivity.
      discriminate Hlen. }
  destruct Hmap as [(r & elems & Hh)|Hfalse];
    [|rewrite Ht, Hlen in Hfalse; discriminate].
  unfold installs in *. rewrite Hh in *.
  destruct elems as [|id ids]; [discriminate Hlen|].
  destruct (can_highlight lv); cbn [negb]; cbv iota; [|now apply Hnone].
  unfold release, bind, ret, emit, modify, getHighlightOIDs_of,
    engine_highlight, getS. simpl.
  rewrite Nat.add_1_r.
  destruct (highlights st); simpl; rewrite <- ?app_assoc; reflexivity.
Qed.

(** The end of [load]: [setState] of the handle and the view object, the
    render that follows, and the completion callback. *)
Lemma store_and_call l lv w :
  has_onLoad (props w) ->
  highlight_mappable (props w) ->
  (setState (PLayer l lv) ;; call_onLoad l) w
  = (Done tt,
     if componentIsMounted w
     then mkWorld true (props w)
            (mkState (Some l) (Some lv)
               (match installs (props w) lv (fresh w) with
                | [] => None
                | _ :: _ => Some (fresh w)
                end))
            (trace w ++ [ESetState (PLayer l lv)]
               ++ installs (props w) lv (fresh w) ++ release (state w)
               ++ [EOnLoad l])
            (fresh w + List.length (installs (props w) lv (fresh w)))
     else add_events w [ESetState (PLayer l lv); EOnLoad l]).
Proof.
  intros (f & n & t & Hf) Hmap. unfold bind.
  destruct (componentIsMounted w) eqn:Hm.
  - rewrite (setState_mounted _ w Hm). cbv zeta.
    rewrite (getDerivedStateFromProps_installs (props w)
               (apply_patch (PLayer l lv) (state w)) lv _ Hmap eq_refl).
    cbv iota beta. unfold call_onLoad, bind, getS. cbv iota beta.
    cbn [props add_events]. rewrite Hf, emit_add_events.
    unfold add_events.
    cbn [componentIsMounted props state trace fresh layer layerView
           apply_patch].
    rewrite Hm. unfold release. cbn [highlights apply_patch].
    rewrite <- !app_assoc. reflexivity.
  - rewrite (setState_unmounted _ _ Hm). cbv iota beta.
    unfold call_onLoad, bind, getS. cbv iota beta.
    cbn [props add_events]. rewrite Hf, emit_add_events, add_events_app.
    reflexivity.
Qed.

Lemma live_app tr es : live (tr ++ es) = fold_left live_step es (live tr).
Proof. unfold live. apply fold_left_app. Qed.

Lemma live_not_highlight es : forall l,
  Forall not_highlight es -> fold_left live_step es l = l.
Proof.
  induction es as [|e es IH]; simpl; intros l H; [reflexivity|].
  inversion H as [|? ? He Hes]; subst. rewrite He. now apply IH.
Qed.

Lemma highlight_invariant_appends w w' :
  appends not_highlight w w' -> highlight_invariant w -> highlight_invariant w'.
Proof.
  intros (es & -> & Hq) [Hl Hf]. split; simpl.
  - now rewrite live_app, live_not_highlight.
  - exact Hf.
Qed.

Lemma live_release (st : State) (l : list HighlightSet) new :
  l = match highlights st with Some hs => [hs] | None => [] end ->
  (forall hs, highlights st = Some hs -> hs < new) ->
  fold_left live_step (release st) (l ++ [new]) = [new]
  /\ fold_left live_step (release st) l = [].
Proof.
  unfold release. intros -> Hlt.
  destruct (highlights st) as [old|]; simpl; [|now split].
  rewrite Nat.eqb_refl. simpl.
  specialize (Hlt old eq_refl).
  destruct (Nat.eqb_spec new old); [lia|now split].
Qed.

Lemma highlight_invariant_rerender p w :
  highlight_invariant w -> highlight_invariant (snd (rerender p w)).
Proof.
  intros [Hl Hf]. unfold rerender.
  unfold bind at 1. unfold getS at 1. cbv iota beta.
  unfold bind at 1.
  destruct (getDerivedStateFromProps_cases p (state w) w)
    as [(lv & ids & _ & E)|[E|E]]; rewrite E; cbv iota beta.
  - unfold bind at 1, set_props at 1, modify at 1. cbv iota beta.
    unfold bind at 1, set_state at 1, modify at 1. cbv iota beta.
    eapply highlight_invariant_appends; [apply componentDidUpdate_appends|].
    split; simpl.
    + rewrite live_app. simpl.
      now apply (live_release (state w) (live (trace w)) (fresh w)).
    + intros hs [= <-]. lia.
  - unfold bind at 1, set_props at 1, modify at 1. cbv iota beta.
    unfold bind at 1, set_state at 1, modify at 1. cbv iota beta.
    eapply highlight_invariant_appends; [apply componentDidUpdate_appends|].
    split; simpl.
    + rewrite live_app.
      now apply (live_release (state w) (live (trace w)) (fresh w)).
    + discriminate.
  - now split.
Qed.

(** What [componentWillUnmount] leaves: the flag cleared, and calls that
    touch no highlight set. *)
Lemma componentWillUnmount_world w :
  exists es,
    snd (componentWillUnmount w)
    = mkWorld false (props w) (state w) (trace w ++ es) (fresh w)
    /\ Forall (fun e => from_react e = true) es
    /\ Forall not_highlight es.
Proof.
  assert (Hn : forall e, (forall l, live_step l e = l) -> not_highlight e)
    by (intros e He; exact He).
  unfold componentWillUnmount, bind, emit, set_mounted, modify, getS, ret, throw.
  simpl. destruct (layer (state w)) as [l|].
  - destruct (hremoveAll l); simpl; destruct (get (props w) "view"); simpl;
      rewrite <- ?app_assoc; simpl;
      eexists; (split; [reflexivity|]);
      split; repeat constructor; try (apply Hn; reflexivity).
  - exists [EWillUnmount]. split; [reflexivity|].
    split; repeat constructor; try (apply Hn; reflexivity).
Qed.

(** [setState] adds its own mark to the trace, and what the render that
    follows calls. *)
Lemma setState_trace p w :
  exists es,
    trace (snd (setState p w)) = trace w ++ ESetState p :: es
    /\ Forall (fun e => from_react e = true) es.
Proof.
  destruct (componentIsMounted w) eqn:Hm.
  - rewrite (setState_mounted p w Hm). cbv zeta.
    destruct (getDerivedStateFromProps_grows (props w)
                (apply_patch p (state w)) (add_events w [ESetState p]))
      as (es & E & F).
    destruct (getDerivedStateFromProps _ _ _) as [[hl|e] w1]; cbn [snd] in *.
    + exists es. split; [|exact F].
      rewrite E. simpl. now rewrite <- app_assoc.
    + destruct (componentWillUnmount_world w1) as (es' & -> & F' & _).
      exists (es ++ es'). split; [|apply Forall_app; now split].
      cbn [trace]. rewrite E. simpl. now rewrite <- !app_assoc.
  - rewrite (setState_unmounted p w Hm). exists []. split; [reflexivity|constructor].
Qed.

Lemma highlight_invariant_setState l lv w :
  highlight_invariant w -> highlight_invariant (snd (setState (PLayer l lv) w)).
Proof.
  intros [Hl Hf].
  destruct (componentIsMounted w) eqn:Hm.
  - destruct (setState_cases (PLayer l lv) w Hm)
      as [(lv' & ids & _ & E)|[E|[_ E]]]; rewrite E; clear E; cbn [snd].
    + split; cbn [trace state highlights fresh].
      * rewrite live_app. cbn [fold_left live_step].
        now apply (live_release (apply_patch (PLayer l lv) (state w))
                     (live (trace w)) (fresh w)).
      * intros hs [= <-]. lia.
    + split; cbn [trace state highlights fresh].
      * rewrite live_app. cbn [fold_left live_step].
        now apply (live_release (apply_patch (PLayer l lv) (state w))
                     (live (trace w)) (fresh w)).
      * discriminate.
    + destruct (componentWillUnmount_world (add_events w [ESetState (PLayer l lv)]))
        as (es & -> & _ & Hes).
      split; cbn [trace state highlights fresh add_events].
      * rewrite <- app_assoc, live_app. cbn [app fold_left live_step].
        now rewrite live_not_highlight.
      * exact Hf.
  - rewrite (setState_unmounted _ _ Hm). cbn [snd].
    split; cbn [trace state highlights fresh add_events].
    + rewrite live_app. exact Hl.
    + exact Hf.
Qed.

Lemma highlight_invariant_step s w :
  highlight_invariant w -> highlight_invariant (snd (step s w)).
Proof.
  destruct s as [p|l lv]; simpl;
    [apply highlight_invariant_rerender|apply highlight_invariant_setState].
Qed.

Lemma highlight_invariant_run steps : forall w,
  highlight_invariant w -> highlight_invariant (snd (run steps w)).
Proof.
  induction steps as [|s steps IH]; simpl; intros w H; [assumption|].
  unfold bind. pose proof (highlight_invariant_step s w H) as Hs.
  destruct (step s w) as [[[]|e] w']; simpl in *; [now apply IH|assumption].
Qed.

(** C3, as the code has it. Between two steps of the life of a Layer
    instance, mounted or not (a render with new props, or the render that
    follows the storing of the handle and the view object) the live
    highlight sets are exactly the one the state holds, so at most one;
    and within a derivation of the state the calls are, in this order,
    the installation of the new set, if any, and then the release of the
    previous one, if any. *)
Theorem one_highlight_between_renders :
  (forall (p : Obj) (isMounted : bool) (steps : list Step),
      let w := snd (run steps (if isMounted then mounted (constructed p)
                               else constructed p)) in
      live (trace w)
      = match highlights (state w) with Some hs => [hs] | None => [] end
      /\ List.length (live (trace w)) <= 1)
  /\ (forall (p : Obj) (st : State) (w : World),
        getDerivedStateFromProps p st w = (Thrown TypeError, w)
        \/ exists install,
            trace (snd (getDerivedStateFromProps p st w))
            = trace w ++ install ++ release st
            /\ (install = []
                /\ fst (getDerivedStateFromProps p st w) = Done None
                \/ exists lv ids,
                    install = [EHighlight lv (Ids ids) (fresh w)]
                    /\ fst (getDerivedStateFromProps p st w)
                       = Done (Some (fresh w)))).
Proof.
  split.
  - intros p isMounted steps w.
    assert (H : highlight_invariant w).
    { apply highlight_invariant_run.
      destruct isMounted; (split; [reflexivity|discriminate]). }
    destruct H as [Hl _]. split; [exact Hl|].
    rewrite Hl. destruct (highlights (state w)); simpl; lia.
  - intros p st w.
    destruct (getDerivedStateFromProps_cases p st w)
      as [(lv & ids & _ & E)|[E|E]]; rewrite E; simpl.
    + right. exists [EHighlight lv (Ids ids) (fresh w)]. split; [reflexivity|].
      right. now exists lv, ids.
    + right. exists []. split; [reflexivity|now left].
    + now left.
Qed.

(** The claim fails as it is stated: a mounted instance that holds the
    highlight set 0 and is rendered with a new highlight array installs
    the set 1 before it releases the set 0, and both are live in
    between. *)
Lemma highlight_installed_before_release :
  let lv := layerView_a in
  let w := snd (run [Attached layer_a lv;
                     NewProps [("highlight", VArr 1 [VNum 10])];
                     NewProps [("highlight", VArr 2 [VNum 20])]]
                    (mounted (constructed [("highlight", VArr 0 [])]))) in
  trace w
  = [ ESetState (PLayer layer_a lv);
      EHighlight lv (Ids [VNum 10]) 0;
      EApplyUpdates [("highlight", VArr 0 [])]
                    [("highlight", VArr 1 [VNum 10])] (Some layer_a) (Some lv);
      EHighlight lv (Ids [VNum 20]) 1;
      EHighlightRemove 0;
      EApplyUpdates [("highlight", VArr 1 [VNum 10])]
                    [("highlight", VArr 2 [VNum 20])] (Some layer_a) (Some lv) ]
  /\ live (firstn 4 (trace w)) = [0; 1]
  /\ ~ one_live_throughout (trace w).
Proof.
  cbv zeta. split; [reflexivity|]. split; [reflexivity|].
  intros H. specialize (H 4). vm_compute in H. lia.
Qed.

(** *** The update path *)

Lemma find_differs_none (prev next : Obj) :
  (forall k, In k (keys prev) -> strict_eqb (get prev k) (get next k) = true) ->
  find (fun key => negb (strict_eqb (get prev key) (get next key))) (keys prev)
  = None.
Proof.
  intros H. destruct (find _ _) as [k|] eqn:E; [|reflexivity].
  apply find_some in E. destruct E as [Hk Hd].
  rewrite (H k Hk) in Hd. discriminate.
Qed.

Lemma find_differs_some (prev next : Obj) :
  (exists k, In k (keys prev)
             /\ strict_eqb (get prev k) (get next k) = false) ->
  exists key,
    find (fun key => negb (strict_eqb (get prev key) (get next key))) (keys prev)
    = Some key /\ In key (keys prev).
Proof.
  intros (k & Hk & Hd). destruct (find _ _) as [key|] eqn:E.
  - exists key. split; [reflexivity|]. now apply find_some in E.
  - apply find_none with (x := k) in E; [|assumption].
    rewrite Hd in E. discriminate.
Qed.

(** C6, as the code has it. On a prop update while ready, the keys that
    are compared are the keys of the previous props, whatever they are:
    when none of them has a different value in the next props, the
    component makes no call; when one of them has (and the empty string
    is not a key), the Update Dispatcher is invoked with the previous
    props, the next props, the handle and the view object, after the
    refresh of the view object when the refresh counter differs. *)
Theorem componentDidUpdate_dispatch
  (prev : Obj) (w : World) (l : Handle) (lv : LayerView) :
  layer (state w) = Some l ->
  layerView (state w) = Some lv ->
  ((forall k, In k (keys prev) ->
              strict_eqb (get prev k) (get (props w) k) = true) ->
   componentDidUpdate prev w = (Done tt, w))
  /\ (~ In ""%string (keys prev) ->
      (exists k, In k (keys prev)
                 /\ strict_eqb (get prev k) (get (props w) k) = false) ->
      componentDidUpdate prev w
      = (Done tt,
         add_events w
           ((if strict_eqb (get (props w) "refresh") (get prev "refresh")
             then [] else [ERefresh lv])
            ++ [EApplyUpdates prev (props w) (Some l) (Some lv)]))).
Proof.
  intros Hl Hlv. split.
  - intros Hsame. unfold componentDidUpdate, bind, getS. cbv iota beta.
    rewrite Hl, (find_differs_none _ _ Hsame). reflexivity.
  - intros Hempty Hd. unfold componentDidUpdate, bind at 1, getS. cbv iota beta.
    destruct (find_differs_some _ _ Hd) as (key & -> & Hkey).
    rewrite Hl, Hlv. cbv iota.
    assert (Ht : truthy (VStr key) = true).
    { simpl. destruct (String.eqb_spec key ""); [subst; contradiction|reflexivity]. }
    rewrite Ht. change (negb true) with false. cbv iota.
    unfold bind, emit, modify, ret.
    destruct (strict_eqb (get (props w) "refresh") (get prev "refresh"));
      simpl; unfold add_events; simpl; rewrite <- ?app_assoc; reflexivity.
Qed.

(** At the inputs: props that do not change, and a refresh counter that
    goes from 1 to 2. *)
Lemma componentDidUpdate_dispatch_witness :
  componentDidUpdate (props_refresh 1) (ready (props_refresh 1))
  = (Done tt, ready (props_refresh 1))
  /\ componentDidUpdate (props_refresh 1) (ready (props_refresh 2))
     = (Done tt,
        add_events (ready (props_refresh 2))
          [ ERefresh layerView_a;
            EApplyUpdates (props_refresh 1) (props_refresh 2)
                          (Some layer_a) (Some layerView_a) ]).
Proof.
  split.
  - apply (proj1 (componentDidUpdate_dispatch (props_refresh 1)
                    (ready (props_refresh 1)) layer_a layerView_a
                    eq_refl eq_refl)).
    intros k Hk. simpl in Hk.
    repeat (destruct Hk as [<-|Hk]; [reflexivity|]). contradiction.
  - apply (proj2 (componentDidUpdate_dispatch (props_refresh 1)
                    (ready (props_refresh 2)) layer_a layerView_a
                    eq_refl eq_refl)).
    + simpl. intros H.
      repeat (destruct H as [H|H]; [discriminate H|]). contradiction.
    + exists "refresh"%string. split; [simpl; tauto|reflexivity].
Defined.

(** The claim fails as it is stated: when the highlight prop alone
    changes, no recognized key differs and the Update Dispatcher is
    invoked all the same. *)
Lemma dispatch_without_recognized_change :
  let prev := props_highlight 1 [VNum 10] in
  let next := props_highlight 2 [VNum 20] in
  (forall k, In k recognized_keys ->
             strict_eqb (get prev k) (get next k) = true)
  /\ componentDidUpdate prev (ready next)
     = (Done tt,
        add_events (ready next)
          [EApplyUpdates prev next (Some layer_a) (Some layerView_a)]).
Proof.
  cbv zeta. split; [|reflexivity].
  intros k Hk. unfold recognized_keys, layerSettingsProps in Hk. simpl in Hk.
  repeat (destruct Hk as [<-|Hk]; [reflexivity|]). contradiction.
Qed.

(** *** The mount sequence *)

Lemma componentDidMount_load sch w :
  componentDidMount sch w
  = load sch (get (props w) "view") (getLayerSettings (props w)) (mounted w).
Proof. reflexivity. Qed.

Lemma load_without_existing sch v settings w :
  existing_layer v settings = None ->
  load sch (VView v) settings w
  = let w' := interfere (during_loadLayer sch)
                        (add_events w [ELoadLayer settings]) in
    match loadLayer_result sch with
    | Rejects => (Thrown Rejection, w')
    | Resolves loaded =>
        match negb (componentIsMounted w'), loaded with
        | true, _ | _, None => (Done tt, w')
        | false, Some l => load_attach sch v settings l w'
        end
    end.
Proof.
  unfold existing_layer. intros H. unfold load.
  change (negb (truthy (VView v))) with false. cbv iota zeta. rewrite H.
  unfold await, bind, modify, getS, ret, throw. cbv beta.
  rewrite emit_add_events. cbv iota beta zeta.
  destruct (loadLayer_result sch) as [loaded|]; [|reflexivity].
  cbv iota beta.
  destruct (negb (componentIsMounted _)); [reflexivity|].
  now destruct loaded.
Qed.

Lemma load_with_existing sch v settings w l :
  existing_layer v settings = Some l ->
  load sch (VView v) settings w
  = if negb (componentIsMounted w) then (Done tt, w)
    else load_attach sch v settings l w.
Proof.
  unfold existing_layer. intros H. unfold load.
  change (negb (truthy (VView v))) with false. cbv iota zeta. rewrite H.
  unfold bind, getS, ret. cbv iota beta.
  now destruct (negb (componentIsMounted w)).
Qed.

Lemma load_attach_eq sch v settings l w :
  load_attach sch v settings l w
  = let w' := interfere (during_whenLayerView sch)
                        (add_events w [EMapAdd v l; EWhenLayerView v l]) in
    match whenLayerView_result sch with
    | Rejects => (Thrown Rejection, w')
    | Resolves lv =>
        if negb (componentIsMounted w')
        then (Done tt, add_events w' [EMapRemove v l])
        else load_ready sch settings l lv w'
    end.
Proof.
  unfold load_attach, await, bind, modify, getS, ret, throw. cbv beta.
  rewrite emit_add_events. cbv iota beta.
  rewrite emit_add_events. cbv iota beta zeta. rewrite add_events_app.
  simpl app.
  destruct (whenLayerView_result sch) as [lv|]; [|reflexivity].
  cbv iota beta.
  destruct (negb (componentIsMounted _)); reflexivity.
Qed.

Lemma load_ready_eq sch settings l lv w :
  when_result sch = Resolves tt ->
  applyUpdates_result sch = Resolves tt ->
  let w3 := interfere (during_when sch) (add_events w [ELayerWhen l]) in
  let w4 := interfere (during_applyUpdates sch)
              (add_events w3 [EApplyUpdates settings (props w3)
                                (layer (state w3)) (layerView (state w3))]) in
  no_selection (props w4) ->
  load_ready sch settings l lv w
  = (setState (PLayer l lv) ;; call_onLoad l) w4.
Proof.
  intros Hw Ha w3 w4 Hsel.
  unfold load_ready, bind at 1. rewrite emit_add_events. cbv iota beta.
  unfold bind at 1, await at 1. rewrite Hw.
  unfold bind at 1, modify at 1. cbv iota beta.
  unfold ret at 1. cbv iota beta.
  unfold bind at 1, getS at 1. cbv iota beta.
  unfold bind at 1. rewrite emit_add_events. cbv iota beta.
  unfold bind at 1, await at 1. rewrite Ha.
  unfold bind at 1, modify at 1. cbv iota beta.
  unfold ret at 1. cbv iota beta.
  unfold bind at 1, getS at 1. cbv iota beta.
  fold w3. fold w4. clearbody w4. clear w3. cbv zeta.
  unfold no_selection in Hsel. rewrite Hsel.
  unfold bind at 1, ret at 1. cbv iota beta.
  reflexivity.
Qed.

Lemma from_react_not_add e : from_react e = true -> not_add e.
Proof. intros H v l ->. discriminate. Qed.

Lemma interfere_trace acts w :
  exists es,
    trace (interfere acts w) = trace w ++ es
    /\ Forall (fun e => from_react e = true) es
    /\ Forall not_add es.
Proof.
  destruct (interfere_grows acts w) as (es & E & F).
  exists es. repeat split; try assumption.
  eapply Forall_impl; [|exact F]. apply from_react_not_add.
Qed.

(** Before [load] has stored anything *)

Lemma idle_state w : LayerMore.idle w -> state w = mkState None None None.
Proof.
  unfold LayerMore.idle. destruct (state w) as [a b c]. simpl.
  now intros (-> & -> & ->).
Qed.

Lemma idle_derivation p w :
  LayerMore.idle w -> getDerivedStateFromProps p (state w) w = (Done None, w).
Proof.
  intros Hi. rewrite (idle_state w Hi).
  pose proof (release_only (mkState None None None) w) as Hnone.
  unfold release in Hnone. simpl in Hnone. rewrite add_events_nil in Hnone.
  unfold getDerivedStateFromProps. cbv zeta. simpl layerView. simpl highlights.
  destruct (negb (truthy (get p "highlight"))); [exact Hnone|].
  destruct (negb (truthy (length_of (get p "highlight")))); exact Hnone.
Qed.

Lemma idle_rerender p w :
  LayerMore.idle w ->
  rerender p w
  = (Done tt,
     mkWorld (componentIsMounted w) p (mkState None None None) (trace w)
             (fresh w)).
Proof.
  intros Hi. unfold rerender. unfold bind at 1, getS at 1. cbv iota beta.
  unfold bind at 1. rewrite (idle_derivation p w Hi). cbv iota beta.
  rewrite (idle_state w Hi).
  unfold componentDidUpdate, bind, set_props, set_state, modify, getS, ret.
  reflexivity.
Qed.

Lemma idle_unmount w :
  LayerMore.idle w ->
  componentWillUnmount w
  = (Done tt,
     mkWorld false (props w) (state w) (trace w ++ [EWillUnmount]) (fresh w)).
Proof.
  intros Hi.
  unfold componentWillUnmount, bind, emit, set_mounted, modify, getS, ret.
  simpl. now rewrite (idle_state w Hi).
Qed.

Lemma idle_act a w :
  LayerMore.idle w ->
  LayerMore.idle (act a w)
  /\ fresh (act a w) = fresh w
  /\ trace (act a w)
     = trace w ++ match a with Unmount => [EWillUnmount] | Rerender _ => [] end.
Proof.
  intros Hi. destruct a as [|p]; simpl.
  - rewrite (idle_unmount w Hi). cbn [snd fresh trace].
    split; [exact Hi|now split].
  - rewrite (idle_rerender p w Hi). cbn [snd fresh trace]. rewrite app_nil_r.
    split; [|now split]. unfold LayerMore.idle. simpl. now repeat split.
Qed.

(** While the instance holds neither handle, nor view object, nor
    highlight set, what React does leaves nothing in the trace but the
    marks of the unmounts. *)
Lemma idle_interfere_trace acts : forall w,
  LayerMore.idle w ->
  trace (interfere acts w)
  = trace w ++ repeat EWillUnmount (LayerMore.unmounts acts).
Proof.
  induction acts as [|a acts IH]; intros w Hi.
  - simpl. now rewrite app_nil_r.
  - simpl interfere. destruct (idle_act a w Hi) as (Hi' & _ & Ht).
    rewrite (IH _ Hi'), Ht, <- app_assoc. f_equal.
    unfold LayerMore.unmounts. destruct a; reflexivity.
Qed.

(** C2, as the code has it. When React unmounts the component before the
    promise of the loader settles, [load] stops at its first liveness
    check: after the call of the loader the mount sequence makes no call
    at all, so the handle the loader resolves is neither added to the
    layer collection nor removed from it (on an instance that holds no
    handle yet, the rest of the trace is the mark of the unmount alone).
    A removal is made only when the abort is observed after a handle has
    been obtained and added, that is at the liveness check that follows
    the view resolution: the last call of the sequence is then
    [view.map.remove] on that handle. *)
Theorem unmount_during_mount (sch : Schedule) (w : World) (v : View) :
  get (props w) "view" = VView v ->
  let settings := getLayerSettings (props w) in
  let w' := snd (componentDidMount sch w) in
  (existing_layer v settings = None ->
   In Unmount (during_loadLayer sch) ->
   w' = interfere (during_loadLayer sch)
          (add_events (mounted w) [ELoadLayer settings])
   /\ fst (componentDidMount sch w)
      = match loadLayer_result sch with
        | Rejects => Thrown Rejection
        | Resolves _ => Done tt
        end
   /\ componentIsMounted w' = false
   /\ (exists es,
        trace w' = trace w ++ ELoadLayer settings :: es
        /\ Forall (fun e => from_react e = true) es
        /\ Forall not_add es)
   /\ (LayerMore.idle w ->
       trace w'
       = trace w ++ ELoadLayer settings
           :: repeat EWillUnmount (LayerMore.unmounts (during_loadLayer sch))))
  /\ (forall l lv,
        existing_layer v settings = Some l
        \/ (existing_layer v settings = None
            /\ loadLayer_result sch = Resolves (Some l)
            /\ ~ In Unmount (during_loadLayer sch)) ->
        In Unmount (during_whenLayerView sch) ->
        whenLayerView_result sch = Resolves lv ->
        fst (componentDidMount sch w) = Done tt
        /\ exists es1 es2,
            trace w'
            = trace w ++ es1 ++ [EMapAdd v l; EWhenLayerView v l] ++ es2
                ++ [EMapRemove v l]
            /\ Forall not_add es1 /\ Forall not_add es2).
Proof.
  intros Hv settings w'. subst w'. rewrite componentDidMount_load, Hv.
  fold settings. split.
  - intros Hex Hun. rewrite (load_without_existing _ _ _ _ Hex). cbv zeta.
    pose proof (idle_interfere_trace (during_loadLayer sch)
                  (add_events (mounted w) [ELoadLayer settings])) as Hidle.
    set (w1 := interfere _ _) in *.
    assert (Hflag : componentIsMounted w1 = false)
      by now apply interfere_unmounts.
    destruct (interfere_trace (during_loadLayer sch)
                (add_events (mounted w) [ELoadLayer settings]))
      as (es & E & Fr & F).
    fold w1 in E. simpl in E. rewrite <- app_assoc in E. simpl in E.
    assert (Hend : forall o : outcome unit * World,
              o = (match loadLayer_result sch with
                   | Rejects => Thrown Rejection
                   | Resolves _ => Done tt
                   end, w1) ->
              snd o = w1
              /\ fst o = match loadLayer_result sch with
                         | Rejects => Thrown Rejection
                         | Resolves _ => Done tt
                         end
              /\ componentIsMounted (snd o) = false
              /\ (exists es, trace (snd o) = trace w ++ ELoadLayer settings :: es
                             /\ Forall (fun e => from_react e = true) es
                             /\ Forall not_add es)
              /\ (LayerMore.idle w ->
                  trace (snd o)
                  = trace w ++ ELoadLayer settings
                      :: repeat EWillUnmount
                           (LayerMore.unmounts (during_loadLayer sch)))).
    { intros o ->. cbn [fst snd]. repeat split; try assumption.
      - now exists es.
      - intros Hi. rewrite Hidle by exact Hi. simpl.
        now rewrite <- app_assoc. }
    apply Hend. rewrite Hflag.
    now destruct (loadLayer_result sch).
  - intros l lv Hobt Hun Hlv.
    assert (Hattach : forall w1 : World,
              componentIsMounted w1 = true ->
              fst (load_attach sch v settings l w1) = Done tt
              /\ exists es2,
                  trace (snd (load_attach sch v settings l w1))
                  = trace w1 ++ [EMapAdd v l; EWhenLayerView v l] ++ es2
                      ++ [EMapRemove v l]
                  /\ Forall not_add es2).
    { intros w1 _. rewrite load_attach_eq, Hlv. cbv zeta.
      rewrite interfere_unmounts by assumption. simpl negb. cbv iota.
      split; [reflexivity|].
      destruct (interfere_trace (during_whenLayerView sch)
                  (add_events w1 [EMapAdd v l; EWhenLayerView v l]))
        as (es & E & _ & F).
      exists es. split; [|assumption]. simpl. rewrite E. simpl.
      now rewrite <- !app_assoc. }
    destruct Hobt as [Hex|(Hex & Hres & Hstay)].
    + rewrite (load_with_existing _ _ _ _ _ Hex). simpl negb. cbv iota.
      destruct (Hattach (mounted w) eq_refl) as (Hd & es2 & E & F).
      split; [assumption|]. exists [], es2. now repeat split.
    + rewrite (load_without_existing _ _ _ _ Hex), Hres. cbv zeta.
      set (w1 := interfere _ _).
      assert (Hflag : componentIsMounted w1 = true).
      { unfold w1. now rewrite interfere_keeps_flag. }
      rewrite Hflag. simpl negb. cbv iota.
      destruct (Hattach w1 Hflag) as (Hd & es2 & E & F).
      split; [assumption|].
      destruct (interfere_trace (during_loadLayer sch)
                  (add_events (mounted w) [ELoadLayer settings]))
        as (es1 & E1 & _ & F1).
      fold w1 in E1. simpl in E1.
      exists (ELoadLayer settings :: es1), es2. repeat split.
      * rewrite E, E1. now rewrite <- !app_assoc.
      * constructor; [discriminate|assumption].
      * assumption.
Qed.

(** At the inputs: the loader has nothing to reuse, and React unmounts
    the component while the loader works, or during the view
    resolution. *)
Lemma unmount_during_mount_witness :
  let w := constructed (props_a view_empty) in
  let settings := getLayerSettings (props_a view_empty) in
  (snd (componentDidMount unmount_during_loadLayer w)
   = interfere [Unmount] (add_events (mounted w) [ELoadLayer settings])
   /\ fst (componentDidMount unmount_during_loadLayer w) = Done tt
   /\ componentIsMounted (snd (componentDidMount unmount_during_loadLayer w))
      = false
   /\ (exists es,
        trace (snd (componentDidMount unmount_during_loadLayer w))
        = trace w ++ ELoadLayer settings :: es
        /\ Forall (fun e => from_react e = true) es
        /\ Forall not_add es)
   /\ (LayerMore.idle w ->
       trace (snd (componentDidMount unmount_during_loadLayer w))
       = trace w ++ ELoadLayer settings :: repeat EWillUnmount 1))
  /\ (fst (componentDidMount unmount_during_whenLayerView w) = Done tt
      /\ exists es1 es2,
          trace (snd (componentDidMount unmount_during_whenLayerView w))
          = trace w ++ es1
              ++ [EMapAdd view_empty layer_a; EWhenLayerView view_empty layer_a]
              ++ es2 ++ [EMapRemove view_empty layer_a]
          /\ Forall not_add es1 /\ Forall not_add es2).
Proof.
  cbv zeta. split.
  - apply (proj1 (unmount_during_mount unmount_during_loadLayer
                    (constructed (props_a view_empty)) view_empty eq_refl)).
    + reflexivity.
    + simpl. auto.
  - apply (proj2 (unmount_during_mount unmount_during_whenLayerView
                    (constructed (props_a view_empty)) view_empty eq_refl)
                 layer_a layerView_a).
    + right. split; [reflexivity|]. split; [reflexivity|]. simpl. tauto.
    + simpl. auto.
    + reflexivity.
Defined.

(** The claim fails as it is stated: React unmounts the component while
    the loader works, the loader resolves the handle [a], and the mount
    sequence returns at its first liveness check: the handle is not
    added, and no call removes it. *)
Lemma resolved_handle_is_dropped :
  let w := constructed (props_a view_empty) in
  let settings := getLayerSettings (props_a view_empty) in
  In Unmount (during_loadLayer unmount_during_loadLayer)
  /\ loadLayer_result unmount_during_loadLayer = Resolves (Some layer_a)
  /\ componentDidMount unmount_during_loadLayer w
     = (Done tt,
        mkWorld false (props_a view_empty) (mkState None None None)
          [ELoadLayer settings; EWillUnmount] 0)
  /\ forall v, ~ In (EMapRemove v layer_a)
                    (trace (snd (componentDidMount unmount_during_loadLayer w)))
               /\ ~ In (ELayersRemove v layer_a)
                    (trace (snd (componentDidMount unmount_during_loadLayer w))).
Proof.
  cbv zeta. split; [now left|]. split; [reflexivity|]. split; [reflexivity|].
  intros v. split; intros [H|[H|[]]]; discriminate H.
Qed.

(** C5, as the code has it. When the mount sequence finds a handle with a
    matching [id] in the layer collection it reuses it: the loader is not
    called, and [view.map.add] is called once with that handle, present
    as it is. If the component is still mounted when the view object
    resolves, the promises resolve, and the props have no selection, an
    [onLoad] callback and a highlight that is an array or empty, the
    ready sequence completes: the Update Dispatcher is invoked with the
    extracted settings as previous props, [setState] is called with the
    handle and the view object, and the completion callback is invoked
    with the handle. Between these two, React, if it has not unmounted
    the component meanwhile, renders it at once: the derivation installs
    the highlight set of a non-empty highlight array on the obtained view
    object and releases the set the state held, if any. *)
Theorem remount_reuses_handle
  (sch : Schedule) (w : World) (v : View) (l : Handle) (lv : LayerView) :
  get (props w) "view" = VView v ->
  let settings := getLayerSettings (props w) in
  existing_layer v settings = Some l ->
  ~ In Unmount (during_whenLayerView sch) ->
  whenLayerView_result sch = Resolves lv ->
  when_result sch = Resolves tt ->
  applyUpdates_result sch = Resolves tt ->
  (forall p,
      p = props w \/ rendered (during_whenLayerView sch) p
      \/ rendered (during_when sch) p \/ rendered (during_applyUpdates sch) p ->
      no_selection p /\ has_onLoad p /\ highlight_mappable p) ->
  In l (items v)
  /\ fst (componentDidMount sch w) = Done tt
  /\ exists es2 es3 es4 next sl slv render,
      trace (snd (componentDidMount sch w))
      = trace w ++ [EMapAdd v l; EWhenLayerView v l] ++ es2
          ++ [ELayerWhen l] ++ es3
          ++ [EApplyUpdates settings next sl slv] ++ es4
          ++ [ESetState (PLayer l lv)] ++ render ++ [EOnLoad l]
      /\ Forall (fun e => from_react e = true) (es2 ++ es3 ++ es4)
      /\ (In Unmount (during_when sch) \/ In Unmount (during_applyUpdates sch) ->
          render = [])
      /\ (~ In Unmount (during_when sch) ->
          ~ In Unmount (during_applyUpdates sch) ->
          exists p hs rel,
            (p = props w \/ rendered (during_whenLayerView sch) p
             \/ rendered (during_when sch) p
             \/ rendered (during_applyUpdates sch) p)
            /\ (rel = [] \/ exists old, rel = [EHighlightRemove old])
            /\ render = installs p lv hs ++ rel).
Proof.
  intros Hv settings Hex Hstay Hlv Hwhen Happ Hprops.
  split; [apply find_some in Hex; tauto|].
  rewrite componentDidMount_load, Hv. fold settings.
  rewrite (load_with_existing _ _ _ _ _ Hex). simpl negb. cbv iota.
  rewrite load_attach_eq, Hlv. cbv zeta.
  set (w2 := interfere (during_whenLayerView sch) _).
  assert (F2 : componentIsMounted w2 = true).
  { unfold w2. now rewrite interfere_keeps_flag. }
  rewrite F2. simpl negb. cbv iota.
  set (Q := fun p => p = props w \/ rendered (during_whenLayerView sch) p
                     \/ rendered (during_when sch) p
                     \/ rendered (during_applyUpdates sch) p).
  assert (Q2 : Q (props w2)).
  { apply interfere_props; [now left|]. intros p Hp. unfold Q. tauto. }
  pose (w3 := interfere (during_when sch) (add_events w2 [ELayerWhen l])).
  assert (Q3 : Q (props w3)).
  { apply interfere_props; [exact Q2|]. intros p Hp. unfold Q. tauto. }
  pose (w4 := interfere (during_applyUpdates sch)
                (add_events w3 [EApplyUpdates settings (props w3)
                                  (layer (state w3)) (layerView (state w3))])).
  assert (Q4 : Q (props w4)).
  { apply interfere_props; [exact Q3|]. intros p Hp. unfold Q. tauto. }
  assert (Fno : In Unmount (during_when sch)
                \/ In Unmount (during_applyUpdates sch) ->
                componentIsMounted w4 = false).
  { intros [H|H].
    - apply interfere_stays_unmounted. cbn [add_events componentIsMounted].
      now apply interfere_unmounts.
    - now apply interfere_unmounts. }
  assert (Fyes : ~ In Unmount (during_when sch) ->
                 ~ In Unmount (during_applyUpdates sch) ->
                 componentIsMounted w4 = true).
  { intros H3 H4. unfold w4. rewrite interfere_keeps_flag by assumption.
    cbn [add_events componentIsMounted]. unfold w3.
    rewrite interfere_keeps_flag by assumption. exact F2. }
  destruct (Hprops _ Q4) as (Hsel & Hon & Hmap).
  rewrite (load_ready_eq sch settings l lv w2 Hwhen Happ Hsel).
  fold w3 w4. rewrite (store_and_call l lv w4 Hon Hmap).
  split; [reflexivity|]. cbn [snd].
  destruct (interfere_trace (during_whenLayerView sch)
              (add_events (mounted w) [EMapAdd v l; EWhenLayerView v l]))
    as (es2 & E2 & F2' & _).
  destruct (interfere_trace (during_when sch) (add_events w2 [ELayerWhen l]))
    as (es3 & E3 & F3 & _).
  destruct (interfere_trace (during_applyUpdates sch)
              (add_events w3 [EApplyUpdates settings (props w3)
                                (layer (state w3)) (layerView (state w3))]))
    as (es4 & E4 & F4 & _).
  fold w2 in E2. fold w3 in E3. fold w3 w4 in E4. simpl in E2, E3, E4.
  exists es2, es3, es4, (props w3), (layer (state w3)), (layerView (state w3)),
    (if componentIsMounted w4
     then installs (props w4) lv (fresh w4) ++ release (state w4) else []).
  split; [|split; [rewrite !Forall_app; tauto|split]].
  - destruct (componentIsMounted w4); cbn [trace add_events];
      rewrite E4, E3, E2; now rewrite <- !app_assoc.
  - intros H. now rewrite (Fno H).
  - intros H3 H4. rewrite (Fyes H3 H4).
    exists (props w4), (fresh w4), (release (state w4)).
    split; [exact Q4|]. split; [|reflexivity].
    unfold release. destruct (highlights (state w4)) as [old|]; eauto.
Qed.

(** At the inputs: the layer [a] is in the layer collection already, the
    highlight prop holds one id, and nothing disturbs the mount. *)
Lemma remount_reuses_handle_witness :
  let w := constructed (props_a_highlight view_with_a) in
  In layer_a (items view_with_a)
  /\ fst (componentDidMount undisturbed w) = Done tt
  /\ exists es2 es3 es4 next sl slv render,
      trace (snd (componentDidMount undisturbed w))
      = trace w
          ++ [EMapAdd view_with_a layer_a; EWhenLayerView view_with_a layer_a]
          ++ es2 ++ [ELayerWhen layer_a] ++ es3
          ++ [EApplyUpdates (getLayerSettings (props w)) next sl slv] ++ es4
          ++ [ESetState (PLayer layer_a layerView_a)] ++ render
          ++ [EOnLoad layer_a]
      /\ Forall (fun e => from_react e = true) (es2 ++ es3 ++ es4)
      /\ (In Unmount (during_when undisturbed)
          \/ In Unmount (during_applyUpdates undisturbed) ->
          render = [])
      /\ (~ In Unmount (during_when undisturbed) ->
          ~ In Unmount (during_applyUpdates undisturbed) ->
          exists p hs rel,
            (p = props w \/ rendered (during_whenLayerView undisturbed) p
             \/ rendered (during_when undisturbed) p
             \/ rendered (during_applyUpdates undisturbed) p)
            /\ (rel = [] \/ exists old, rel = [EHighlightRemove old])
            /\ render = installs p layerView_a hs ++ rel).
Proof.
  cbv zeta.
  apply (remount_reuses_handle undisturbed
           (constructed (props_a_highlight view_with_a))
           view_with_a layer_a layerView_a); try reflexivity.
  - simpl. tauto.
  - unfold rendered. simpl. intros p [->|H]; [|tauto].
    split; [reflexivity|]. split; [now exists 4, 0, "() => null"%string|].
    left. now exists 3, [VNum 10].
Defined.

(** The claim fails as it is stated: the handle found in the layer
    collection is passed to [view.map.add] again. *)
Lemma reused_handle_is_added_again :
  let w := snd (componentDidMount undisturbed
                  (constructed (props_a view_with_a))) in
  existing_layer view_with_a (getLayerSettings (props_a view_with_a))
  = Some layer_a
  /\ In layer_a (items view_with_a)
  /\ trace w
     = [ EMapAdd view_with_a layer_a;
         EWhenLayerView view_with_a layer_a;
         ELayerWhen layer_a;
         EApplyUpdates (getLayerSettings (props_a view_with_a))
                       (props_a view_with_a) None None;
         ESetState (PLayer layer_a layerView_a);
         EOnLoad layer_a ].
Proof. cbv zeta. split; [reflexivity|]. split; [now left|reflexivity]. Qed.

(** With a highlight of one id, the render that follows [setState]
    installs the highlight set on the obtained view object before the
    completion callback is invoked, and the state holds it. *)
Example mount_renders_before_onLoad :
  let p := props_a_highlight view_with_a in
  componentDidMount undisturbed (constructed p)
  = (Done tt,
     mkWorld true p (mkState (Some layer_a) (Some layerView_a) (Some 0))
       [ EMapAdd view_with_a layer_a;
         EWhenLayerView view_with_a layer_a;
         ELayerWhen layer_a;
         EApplyUpdates (getLayerSettings p) p None None;
         ESetState (PLayer layer_a layerView_a);
         EHighlight layerView_a (Ids [VNum 10]) 0;
         EOnLoad layer_a ] 1).
Proof. reflexivity. Qed.

(** C1. The liveness flag is not checked after the await of
    [layer.when()] nor after the await of [applyUpdates]: when React
    unmounts the component during either, [load] goes on to call the
    Update Dispatcher (in the first case), [setState] (an update React
    drops, the instance being unmounted) and [onLoad], and the handle
    stays in the layer collection, neither [load] nor
    [componentWillUnmount] removing it. *)
Theorem load_goes_on_after_unmount :
  let settings := getLayerSettings (props_a view_empty) in
  componentDidMount unmount_during_when (constructed (props_a view_empty))
  = (Done tt,
     mkWorld false (props_a view_empty)
       (mkState None None None)
       [ ELoadLayer settings;
         EMapAdd view_empty layer_a;
         EWhenLayerView view_empty layer_a;
         ELayerWhen layer_a;
         EWillUnmount;
         EApplyUpdates settings (props_a view_empty) None None;
         ESetState (PLayer layer_a layerView_a);
         EOnLoad layer_a ] 0)
  /\ componentDidMount unmount_during_applyUpdates
       (constructed (props_a view_empty))
     = (Done tt,
        mkWorld false (props_a view_empty)
          (mkState None None None)
          [ ELoadLayer settings;
            EMapAdd view_empty layer_a;
            EWhenLayerView view_empty layer_a;
            ELayerWhen layer_a;
            EApplyUpdates settings (props_a view_empty) None None;
            EWillUnmount;
            ESetState (PLayer layer_a layerView_a);
            EOnLoad layer_a ] 0).
Proof. split; reflexivity. Qed.

(** C4. On the ready step [applyUpdates] receives [this.state.layer] and
    [this.state.layerView], which are still null, not the handle and the
    view object [load] has obtained; and with a non-empty selection
    [this.state.layerView.highlight] is a TypeError, after which neither
    [setState] nor the completion callback is reached. *)
Theorem ready_step_reads_unset_state :
  let settings := getLayerSettings (props_a view_empty) in
  componentDidMount undisturbed (constructed (props_a view_empty))
  = (Done tt,
     mkWorld true (props_a view_empty)
       (mkState (Some layer_a) (Some layerView_a) None)
       [ ELoadLayer settings;
         EMapAdd view_empty layer_a;
         EWhenLayerView view_empty layer_a;
         ELayerWhen layer_a;
         EApplyUpdates settings (props_a view_empty) None None;
         ESetState (PLayer layer_a layerView_a);
         EOnLoad layer_a ] 0)
  /\ componentDidMount undisturbed (constructed (props_a_selection view_empty))
     = (Thrown TypeError,
        mkWorld true (props_a_selection view_empty)
          (mkState None None None)
          [ ELoadLayer settings;
            EMapAdd view_empty layer_a;
            EWhenLayerView view_empty layer_a;
            ELayerWhen layer_a;
            EApplyUpdates settings (props_a_selection view_empty) None None ]
          0).
Proof. split; reflexivity. Qed.

End LayerFacts.

(** ** The DrawingTool component *)

Module DrawingToolFacts.
Import Eff Eff.Notations DrawingTool.

Lemma call_eq raises c t :
  call raises c t
  = (if raises c then Thrown Raised else Done tt,
     mkTool (onCreate t) (onUpdate t) (model t) (layer t) (view t)
            (calls t ++ [c])).
Proof. unfold call, bind, modify, throw, ret. now destruct (raises c). Qed.

(** C9, as the code has it. Every teardown makes, in this order and
    without looking at what a call returns, the calls its guards let
    through: the unsubscription of the create stream and of the update
    stream if they were subscribed, then complete, cancel, reset and
    destroy on the edit engine if it exists, then the removal of the
    scratch layer from the map if it exists; a call that raises ends the
    teardown. On a fully initialized editor whose collaborators do not
    raise these are the seven calls of the specification, in its
    order. *)
Theorem teardown_in_order :
  (forall (raises : Call -> bool) (t : Tool),
      snd (componentWillUnmount raises t)
      = mkTool (onCreate t) (onUpdate t) (model t) (layer t) (view t)
               (calls t ++ until_raise raises (guarded_calls t))
      /\ (fst (componentWillUnmount raises t) = Done tt
          <-> forallb (fun c => negb (raises c)) (guarded_calls t) = true))
  /\ (forall (sc su m l v : nat) (cs : list Call),
        componentWillUnmount never
          (mkTool (Some sc) (Some su) (Some m) (Some l) v cs)
        = (Done tt,
           mkTool (Some sc) (Some su) (Some m) (Some l) v
                  (cs ++ teardown_order sc su m v l))).
Proof.
  split.
  - intros raises [oc ou om ol v cs].
    unfold componentWillUnmount, guarded_calls, bind, getS, ret.
    cbn [onCreate onUpdate model layer view calls].
    destruct oc, ou, om, ol; cbn [app until_raise forallb];
      rewrite ?call_eq;
      repeat (match goal with
              | |- context [raises ?c] => destruct (raises c) eqn:?
              end;
              cbn [fst snd onCreate onUpdate model layer view calls negb andb];
              rewrite ?call_eq);
      rewrite <- ?app_assoc, ?app_nil_r; cbn [app];
      (split; [reflexivity|split; (reflexivity || discriminate)]).
  - intros sc su m l v cs.
    unfold componentWillUnmount, call, never, teardown_order.
    unfold bind, getS, ret, modify.
    simpl. rewrite <- !app_assoc. reflexivity.
Qed.

(** The claim fails as it is stated: torn down before the engine modules
    are loaded, the editor makes no call at all; and when [complete]
    raises, [cancel], [reset] and [destroy] are not issued. *)
Lemma teardown_of_uninitialized_editor :
  componentWillUnmount never (uninitialized 0) = (Done tt, uninitialized 0)
  /\ componentWillUnmount
       (fun c => match c with CComplete _ => true | _ => false end)
       (mkTool (Some 1) (Some 2) (Some 3) (Some 4) 0 [])
     = (Thrown Raised,
        mkTool (Some 1) (Some 2) (Some 3) (Some 4) 0
               [CUnsubscribe 1; CUnsubscribe 2; CComplete 3]).
Proof. split; reflexivity. Qed.

End DrawingToolFacts.

(** ** More on the Settings Extractor and the UUID pattern *)

Module SettingsMoreFacts.
Import Settings ObjFacts SettingsFacts LayerMore.

Lemma get_missing (o : Obj) k : ~ In k (keys o) -> get o k = VUndefined.
Proof.
  induction o as [|[k' v] o IH]; simpl; intros H; [reflexivity|].
  destruct (String.eqb_spec k' k) as [->|_]; [tauto|]. apply IH. tauto.
Qed.

Lemma get_set_same (o : Obj) k v : get (set o k v) k = v.
Proof.
  induction o as [|[k' v'] o IH]; simpl.
  - now rewrite String.eqb_refl.
  - destruct (String.eqb_spec k' k) as [->|Hne]; simpl.
    + now rewrite String.eqb_refl.
    + destruct (String.eqb_spec k' k); [contradiction|exact IH].
Qed.

Lemma get_set_other (o : Obj) k k' v : k <> k' -> get (set o k v) k' = get o k'.
Proof.
  intros Hne. induction o as [|[k0 v0] o IH]; simpl.
  - destruct (String.eqb_spec k k'); [contradiction|reflexivity].
  - destruct (String.eqb_spec k0 k) as [->|H0]; simpl.
    + destruct (String.eqb_spec k k'); [contradiction|reflexivity].
    + destruct (String.eqb_spec k0 k'); [reflexivity|exact IH].
Qed.

Lemma filter_filter {A} (f g : A -> bool) l :
  filter f (filter g l) = filter (fun x => g x && f x) l.
Proof.
  induction l as [|x l IH]; simpl; [reflexivity|].
  destruct (g x); simpl; [destruct (f x)|]; now rewrite IH.
Qed.

Lemma getLayerSettings_kept props :
  getLayerSettings props
  = map (fun k => (k, get props k)) (filter (kept props) layerSettingsProps).
Proof. rewrite getLayerSettings_tabulate, filter_filter. reflexivity. Qed.

Lemma getLayerSettings_ext p q :
  (forall k, In k layerSettingsProps -> get p k = get q k) ->
  getLayerSettings p = getLayerSettings q.
Proof.
  intros H. rewrite !getLayerSettings_kept.
  assert (Ht : get p "layerType" = get q "layerType").
  { apply H. unfold layerSettingsProps. simpl. tauto. }
  rewrite (filter_ext_in (kept p) (kept q)).
  - apply map_ext_in. intros k Hk. apply filter_In in Hk. now rewrite H.
  - intros k Hk. unfold kept, not_pointcloud_opacity, present.
    now rewrite Ht, (H k Hk).
Qed.

Lemma get_settings props k :
  get (getLayerSettings props) k
  = if existsb (String.eqb k) (filter (kept props) layerSettingsProps)
    then get props k else VUndefined.
Proof.
  rewrite getLayerSettings_kept.
  destruct (existsb _ _) eqn:E.
  - apply existsb_exists in E. destruct E as (k' & Hk' & E).
    apply String.eqb_eq in E. subst. now apply get_tabulate.
  - apply get_missing. rewrite keys_tabulate. intros Hk.
    assert (existsb (String.eqb k) (filter (kept props) layerSettingsProps)
            = true); [|congruence].
    apply existsb_exists. exists k. split; [assumption|apply String.eqb_refl].
Qed.

Lemma get_settings_kept props k :
  In k layerSettingsProps ->
  get (getLayerSettings props) k
  = if kept props k then get props k else VUndefined.
Proof.
  intros Hk. rewrite get_settings.
  destruct (kept props k) eqn:E.
  - replace (existsb _ _) with true; [reflexivity|]. symmetry.
    apply existsb_exists. exists k. split; [|apply String.eqb_refl].
    apply filter_In. now split.
  - destruct (existsb _ _) eqn:E'; [|reflexivity].
    apply existsb_exists in E'. destruct E' as (k' & Hk' & E').
    apply String.eqb_eq in E'. subst. apply filter_In in Hk'. destruct Hk'.
    congruence.
Qed.

Lemma layerType_recognized : In "layerType"%string layerSettingsProps.
Proof. unfold layerSettingsProps. simpl. tauto. Qed.

Lemma kept_settings props k :
  In k layerSettingsProps ->
  kept (getLayerSettings props) k = kept props k.
Proof.
  intros Hk. unfold kept at 1, not_pointcloud_opacity, present.
  rewrite (get_settings_kept props k Hk).
  rewrite (get_settings_kept props "layerType" layerType_recognized).
  destruct (kept props k) eqn:E.
  - unfold kept, not_pointcloud_opacity, present in E.
    apply andb_true_iff in E. destruct E as [E1 E2]. rewrite E2, andb_true_r.
    destruct (kept props "layerType"); [exact E1|reflexivity].
  - simpl. now rewrite andb_false_r.
Qed.

(** X1. The Settings Extractor is idempotent: extracting the settings of
    what it has extracted changes nothing. *)
Theorem getLayerSettings_idempotent (props : Obj) :
  getLayerSettings (getLayerSettings props) = getLayerSettings props.
Proof.
  rewrite (getLayerSettings_kept (getLayerSettings props)).
  rewrite (filter_ext_in _ (kept props)) by (intros; now apply kept_settings).
  etransitivity; [|symmetry; apply getLayerSettings_kept].
  apply map_ext_in. intros k Hk. apply filter_In in Hk. destruct Hk as [Hk E].
  now rewrite (get_settings_kept props k Hk), E.
Qed.

(** X2. The Settings Extractor reads the recognized keys only: two props
    objects that give the same value to every recognized key have the same
    settings, whatever else they hold and in whatever order. *)
Theorem getLayerSettings_reads_recognized_keys (p q : Obj) :
  (forall k, In k layerSettingsProps -> get p k = get q k) ->
  getLayerSettings p = getLayerSettings q.
Proof. apply getLayerSettings_ext. Qed.

(** At the inputs: the same id next to different unrecognized props. *)
Lemma getLayerSettings_reads_recognized_keys_witness :
  getLayerSettings [("id", VStr "a"); ("highlight", VArr 1 [VNum 7])]
  = getLayerSettings [("children", VObj 2 VUndefined); ("id", VStr "a")].
Proof.
  apply getLayerSettings_reads_recognized_keys.
  intros k Hk. unfold layerSettingsProps in Hk. simpl in Hk.
  repeat (destruct Hk as [<-|Hk]; [reflexivity|]). contradiction.
Defined.

Lemma get_resolve (ds : Obj) : forall (u : Obj) k,
  NoDup (keys ds) ->
  get (resolve ds u) k
  = if strict_eqb (get u k) VUndefined then get ds k else get u k.
Proof.
  unfold resolve.
  induction ds as [|[k0 d0] ds IH]; simpl; intros u k Hnd.
  - destruct (strict_eqb (get u k) VUndefined) eqn:E; [|reflexivity].
    now apply strict_eqb_undefined in E.
  - inversion Hnd as [|? ? Hk0 Hnd']; subst.
    rewrite IH by assumption.
    destruct (String.eqb_spec k0 k) as [->|Hne].
    + rewrite (get_missing ds k Hk0).
      destruct (strict_eqb (get u k) VUndefined) eqn:E.
      * rewrite get_set_same.
        destruct (strict_eqb d0 VUndefined) eqn:E0; [|reflexivity].
        now apply strict_eqb_undefined in E0.
      * now rewrite E.
    + destruct (strict_eqb (get u k0) VUndefined);
        [now rewrite get_set_other|reflexivity].
Qed.

Lemma defaultProps_NoDup : NoDup (keys defaultProps).
Proof.
  replace (keys defaultProps) with (nodup string_dec (keys defaultProps))
    by reflexivity.
  apply NoDup_nodup.
Qed.

Lemma get_with_defaults user k : get (with_defaults user) k = effective user k.
Proof. apply get_resolve, defaultProps_NoDup. Qed.

Lemma layerType_has_no_default user :
  get (with_defaults user) "layerType" = get user "layerType".
Proof.
  rewrite get_with_defaults. unfold effective.
  destruct (strict_eqb (get user "layerType") VUndefined) eqn:E; [|reflexivity].
  apply strict_eqb_undefined in E. now rewrite E.
Qed.

(** X3. The settings of an element, once React has resolved the default
    props: a recognized key is in the settings exactly when the value the
    element gives it, or its default when the element leaves it
    undefined, is neither null nor undefined ([opacity] apart for a point
    cloud), and the settings carry that value. A null given by the
    element is not replaced by the default. *)
Theorem settings_of_defaulted_props (user : Obj) :
  (forall k,
      In k (keys (getLayerSettings (with_defaults user))) <->
      In k layerSettingsProps
      /\ effective user k <> VNull /\ effective user k <> VUndefined
      /\ ~ (get user "layerType" = VStr "point-cloud" /\ k = "opacity"%string))
  /\ (forall k,
        In k (keys (getLayerSettings (with_defaults user))) ->
        get (getLayerSettings (with_defaults user)) k = effective user k)
  /\ (forall k d,
        In (k, d) defaultProps -> get user k = VNull ->
        ~ In k (keys (getLayerSettings (with_defaults user)))).
Proof.
  assert (Hkeys : forall k,
      In k (keys (getLayerSettings (with_defaults user))) <->
      In k layerSettingsProps
      /\ effective user k <> VNull /\ effective user k <> VUndefined
      /\ ~ (get user "layerType" = VStr "point-cloud" /\ k = "opacity"%string)).
  { intros k. rewrite getLayerSettings_tabulate, keys_tabulate.
    rewrite !filter_In, present_spec, not_pointcloud_opacity_spec.
    rewrite layerType_has_no_default, get_with_defaults. tauto. }
  split; [exact Hkeys|]. split.
  - intros k Hk. rewrite getLayerSettings_tabulate in *.
    rewrite keys_tabulate in Hk. rewrite get_tabulate by assumption.
    apply get_with_defaults.
  - intros k d _ Hnull Hk.
    destruct (proj1 (Hkeys k) Hk) as (_ & Hn & _). apply Hn.
    unfold effective. rewrite Hnull. reflexivity.
Qed.

End SettingsMoreFacts.

Module UuidMoreFacts.
Import Uuid UuidFacts LayerMore.

Lemma in_class_upper k c : in_class k (upper_ascii c) = in_class k c.
Proof. destruct k; each_ascii c; reflexivity. Qed.

Lemma in_class_lower k c : in_class k (lower_ascii c) = in_class k c.
Proof. destruct k; each_ascii c; reflexivity. Qed.

Section CaseChange.
Variable f : ascii -> ascii.
Hypothesis f_class : forall k c, in_class k (f c) = in_class k c.

Lemma match_rep_map k n : forall s,
  match_rep k n (map_chars f s) = option_map (map_chars f) (match_rep k n s).
Proof.
  induction n as [|n IH]; intros s; simpl; [reflexivity|].
  destruct s as [|c s]; simpl; [reflexivity|].
  rewrite f_class. destruct (in_class k c); [apply IH|reflexivity].
Qed.

Lemma match_seq_map p : forall s,
  match_seq p (map_chars f s) = match_seq p s.
Proof.
  induction p as [|[k n] p IH]; intros s; simpl.
  - now destruct s.
  - rewrite match_rep_map. destruct (match_rep k n s); simpl; [apply IH|reflexivity].
Qed.
End CaseChange.

(** X4. The UUID test does not look at the case of the letters: a string
    passes it exactly when its upper-case form does, and exactly when its
    lower-case form does. (The lookup that follows compares the id as it
    is written.) *)
Theorem uuid_test_ignores_case (s : string) :
  test (VStr (map_chars upper_ascii s)) = test (VStr s)
  /\ test (VStr (map_chars lower_ascii s)) = test (VStr s).
Proof.
  unfold test. simpl ToString. split.
  - apply match_seq_map, in_class_upper.
  - apply match_seq_map, in_class_lower.
Qed.

End UuidMoreFacts.

(** ** More on the Layer component *)

Module LayerMoreFacts.
Import JS Eff Eff.Notations Settings Highlight Layer ObjFacts LayerFacts LayerMore.
Local Open Scope eff_scope.

(** X5. When the highlight prop is a non-empty array and the state holds
    a view object that has a [highlight] method, the derivation of the
    state calls [highlight] once, with the ids of the array as the
    Highlight Resolver maps them, returns the handle the engine hands
    out, and releases the previous highlight set, if any, after that
    call. *)
Theorem derivation_installs_resolved_ids
  (p : Obj) (st : State) (w : World) (r : nat) (elems : list value)
  (lv : LayerView) :
  get p "highlight" = VArr r elems ->
  elems <> [] ->
  layerView st = Some lv ->
  can_highlight lv = true ->
  getDerivedStateFromProps p st w
  = (Done (Some (fresh w)),
     mkWorld (componentIsMounted w) (props w) (state w)
       (trace w ++ EHighlight lv (Ids (getHighlightOIDs lv elems)) (fresh w)
                :: release st)
       (S (fresh w))).
Proof.
  intros Hh Hne Hlv Hc. unfold getDerivedStateFromProps. cbv zeta.
  rewrite Hh, Hlv, Hc. simpl truthy. simpl negb.
  destruct elems as [|e elems]; [contradiction|].
  simpl length_of. 
  replace (truthy (VNum (Z.of_nat (List.length (e :: elems))))) with true
    by (simpl; now destruct (List.length elems)).
  simpl negb. cbv iota.
  unfold release, bind, ret, emit, modify, getHighlightOIDs_of, engine_highlight,
    getS. simpl.
  destruct (highlights st); simpl; rewrite <- ?app_assoc; reflexivity.
Qed.

(** At the inputs: an instance that holds the highlight set 0 is rendered
    with the highlight array [10]. *)
Lemma derivation_installs_resolved_ids_witness :
  getDerivedStateFromProps
    [("highlight", VArr 1 [VNum 10])]
    (mkState (Some layer_a) (Some layerView_a) (Some 0))
    (ready [])
  = (Done (Some 0),
     mkWorld true [] (mkState (Some layer_a) (Some layerView_a) None)
       [EHighlight layerView_a (Ids [VNum 10]) 0; EHighlightRemove 0] 1).
Proof.
  apply (derivation_installs_resolved_ids
           [("highlight", VArr 1 [VNum 10])]
           (mkState (Some layer_a) (Some layerView_a) (Some 0))
           (ready []) 1 [VNum 10] layerView_a);
    try reflexivity.
  discriminate.
Defined.


(** *** The calls of a mount *)

Lemma own_calls_app a b : own_calls (a ++ b) = own_calls a ++ own_calls b.
Proof. apply filter_app. Qed.

Lemma own_calls_from_react es :
  Forall (fun e => from_react e = true) es -> own_calls es = [].
Proof.
  induction 1 as [|e es He _ IH]; [reflexivity|].
  unfold own_calls in *. simpl. now rewrite He.
Qed.

Lemma own_calls_interfere acts w :
  own_calls (trace (interfere acts w)) = own_calls (trace w).
Proof.
  destruct (interfere_grows acts w) as (es & E & F).
  rewrite E, own_calls_app, (own_calls_from_react es F). apply app_nil_r.
Qed.

Lemma own_calls_add acts w es :
  own_calls (trace (interfere acts (add_events w es)))
  = own_calls (trace w) ++ own_calls es.
Proof. rewrite own_calls_interfere. simpl. apply own_calls_app. Qed.

Lemma setState_calls p w :
  own_calls (trace (snd (setState p w))) = own_calls (trace w) ++ [ESetState p].
Proof.
  destruct (setState_trace p w) as (es & -> & F).
  change (ESetState p :: es) with ([ESetState p] ++ es).
  rewrite !own_calls_app, (own_calls_from_react es F). now rewrite app_nil_r.
Qed.

(** The calls of the end of [load], and whether it returns. *)
Lemma store_calls l lv w :
  exists called : bool,
    own_calls (trace (snd ((setState (PLayer l lv) ;; call_onLoad l) w)))
    = own_calls (trace w)
        ++ [ESetState (PLayer l lv)] ++ (if called then [EOnLoad l] else [])
    /\ (fst ((setState (PLayer l lv) ;; call_onLoad l) w) = Done tt
        <-> called = true).
Proof.
  unfold bind. pose proof (setState_calls (PLayer l lv) w) as E.
  destruct (setState (PLayer l lv) w) as [[[]|e] w1]; cbn [snd] in E.
  - unfold call_onLoad, bind, getS. cbv iota beta.
    destruct (get (props w1) "onLoad");
      first
        [ exists true; rewrite emit_add_events; cbn [fst snd add_events trace];
          rewrite own_calls_app, E, <- app_assoc;
          split; [reflexivity|split; reflexivity]
        | exists false; unfold throw; cbn [fst snd];
          rewrite E, app_nil_r; split; [reflexivity|split; discriminate] ].
  - exists false. cbn [fst snd]. rewrite E, app_nil_r.
    split; [reflexivity|split; discriminate].
Qed.

Lemma load_ready_calls sch settings l lv w :
  exists r,
    own_calls (trace (snd (load_ready sch settings l lv w)))
    = own_calls (trace w) ++ ready_calls l lv r
    /\ (fst (load_ready sch settings l lv w) = Done tt
        <-> exists hs, r = Stored hs true).
Proof.
  cut (forall res, load_ready sch settings l lv w = res ->
       exists r,
         own_calls (trace (snd res)) = own_calls (trace w) ++ ready_calls l lv r
         /\ (fst res = Done tt <-> exists hs, r = Stored hs true)).
  { intros H. exact (H _ eq_refl). }
  assert (Hfail : forall (e : error) (w' : World),
            own_calls (trace w') = own_calls (trace w) ++ [ELayerWhen l] ->
            exists r,
              own_calls (trace (snd (@Thrown unit e, w')))
              = own_calls (trace w) ++ ready_calls l lv r
              /\ (fst (@Thrown unit e, w') = Done tt
                  <-> exists hs, r = Stored hs true)).
  { intros e w' H. exists Failed. simpl. split; [exact H|].
    split; [discriminate|intros [hs Hs]; discriminate]. }
  assert (Hstore : forall (sel : option HighlightSet) (w' : World),
            own_calls (trace w')
            = own_calls (trace w) ++ ELayerWhen l
                :: match sel with
                   | Some h => [ESetState (PHighlights h)]
                   | None => []
                   end ->
            exists r,
              own_calls (trace (snd ((setState (PLayer l lv) ;; call_onLoad l)
                                       w')))
              = own_calls (trace w) ++ ready_calls l lv r
              /\ (fst ((setState (PLayer l lv) ;; call_onLoad l) w') = Done tt
                  <-> exists hs, r = Stored hs true)).
  { intros sel w' H. destruct (store_calls l lv w') as (called & E & Hd).
    exists (Stored sel called). rewrite E, H. cbn [ready_calls].
    split; [now rewrite <- app_assoc|].
    rewrite Hd. split; [intros ->; now exists sel|].
    intros [hs [= _ ->]]. reflexivity. }
  unfold load_ready. unfold bind at 1. rewrite emit_add_events. cbv iota beta.
  unfold bind at 1, await at 1.
  unfold bind at 1, modify at 1. cbv iota beta.
  pose proof (own_calls_add (during_when sch) w [ELayerWhen l]) as H3.
  set (w3 := interfere (during_when sch) _) in *. clearbody w3.
  change (own_calls [ELayerWhen l]) with [ELayerWhen l] in H3.
  destruct (when_result sch) as [[]|].
  2:{ intros res <-. now apply Hfail. }
  unfold ret at 1. cbv iota beta.
  unfold bind at 1, getS at 1. cbv iota beta.
  unfold bind at 1. rewrite emit_add_events. cbv iota beta.
  unfold bind at 1, await at 1.
  unfold bind at 1, modify at 1. cbv iota beta.
  pose proof (own_calls_add (during_applyUpdates sch) w3
                [EApplyUpdates settings (props w3) (layer (state w3))
                   (layerView (state w3))]) as H4.
  set (w4 := interfere (during_applyUpdates sch) _) in *. clearbody w4.
  simpl in H4. rewrite app_nil_r, H3 in H4. clear H3 w3.
  destruct (applyUpdates_result sch) as [[]|].
  2:{ intros res <-. now apply Hfail. }
  unfold ret at 1. cbv iota beta.
  unfold bind at 1, getS at 1. cbv iota beta zeta.
  unfold bind at 1.
  destruct (truthy (get (props w4) "selection")
            && truthy (length_of (get (props w4) "selection"))).
  - destruct (layerView (state w4)) as [slv|].
    + destruct (can_highlight slv).
      * unfold bind at 1, engine_highlight at 1.
        unfold bind at 1, getS at 1. cbv iota beta zeta.
        unfold bind at 1, modify at 1. cbv iota beta.
        unfold ret at 1. cbv iota beta.
        match goal with
        | |- context [setState (PHighlights ?h) ?w'] =>
            pose proof (setState_calls (PHighlights h) w') as H5;
            destruct (setState (PHighlights h) w') as [[[]|e] w5]
        end; cbn [snd trace] in H5; rewrite own_calls_app, H4 in H5;
          change (own_calls [EHighlight slv
                               (Raw (get (props w4) "selection")) (fresh w4)])
            with (@nil Event) in H5;
          rewrite app_nil_r, <- app_assoc in H5.
        -- intros res <-. apply (Hstore (Some (fresh w4))). exact H5.
        -- intros res <-. exists (Interrupted (fresh w4)). cbn [fst snd].
           split; [exact H5|].
           split; [discriminate|intros [hs Hs]; discriminate].
      * unfold throw. intros res <-. now apply Hfail.
    + unfold throw. intros res <-. now apply Hfail.
  - unfold ret at 1. cbv iota beta.
    intros res <-. apply (Hstore None). simpl. exact H4.
Qed.

Lemma load_attach_calls sch v settings l w :
  exists lv s,
    s <> Stopped
    /\ own_calls (trace (snd (load_attach sch v settings l w)))
       = own_calls (trace w) ++ stage_calls v l lv s
    /\ (forall r, s = Ready r -> whenLayerView_result sch = Resolves lv)
    /\ (fst (load_attach sch v settings l w) = Done tt
        <-> s = Aborted \/ exists hs, s = Ready (Stored hs true)).
Proof.
  rewrite load_attach_eq. cbv zeta.
  pose proof (own_calls_add (during_whenLayerView sch) w
                [EMapAdd v l; EWhenLayerView v l]) as H2.
  set (w2 := interfere (during_whenLayerView sch) _) in *. clearbody w2.
  change (own_calls [EMapAdd v l; EWhenLayerView v l])
    with [EMapAdd v l; EWhenLayerView v l] in H2.
  destruct (whenLayerView_result sch) as [lv|].
  - destruct (negb (componentIsMounted w2)).
    + exists lv, Aborted. simpl. rewrite own_calls_app, H2, <- app_assoc.
      repeat split; try discriminate; auto.
    + destruct (load_ready_calls sch settings l lv w2) as (r & E & Hd).
      exists lv, (Ready r). rewrite E, H2, <- app_assoc.
      repeat split; try discriminate.
      * intros H. right. apply Hd in H. destruct H as [hs ->]. now exists hs.
      * intros [H|[hs H]]; [discriminate|]. apply Hd. exists hs. congruence.
  - exists (mkLayerView 0 [] "" false), ViewRejected. simpl.
    repeat split; try discriminate; auto.
    intros [H|[hs H]]; discriminate.
Qed.

(** X7. Whatever the collaborators answer and whatever React does
    meanwhile, the calls only [load] makes are: the call of the loader
    exactly when no handle is found by [id], and then one of nothing;
    [add] and [whenLayerView], alone or followed by [remove] or by
    [layer.when()]; and after [layer.when()], nothing, or the [setState]
    of a highlight set alone, or the [setState] of a highlight set, if
    any, the [setState] of handle and view object, and [onLoad] or
    not. So the loader and [add] are called at most once,
    [remove] only after [add], [onLoad] only last and after the
    [setState] of the handle; a run that calls [onLoad] returns normally,
    and a run that returns normally has stopped before [add], has
    removed what it added, or has called [onLoad]. *)
Theorem mount_calls (sch : Schedule) (w : World) (v : View) :
  get (props w) "view" = VView v ->
  let settings := getLayerSettings (props w) in
  exists l lv s,
    own_calls (trace (snd (componentDidMount sch w)))
    = own_calls (trace w) ++ loader_call v settings ++ stage_calls v l lv s
    /\ (s <> Stopped ->
        existing_layer v settings = Some l
        \/ loadLayer_result sch = Resolves (Some l))
    /\ (forall r, s = Ready r -> whenLayerView_result sch = Resolves lv)
    /\ (fst (componentDidMount sch w) = Done tt ->
        s = Stopped \/ s = Aborted \/ exists hs, s = Ready (Stored hs true))
    /\ ((exists hs, s = Ready (Stored hs true)) ->
        fst (componentDidMount sch w) = Done tt).
Proof.
  intros Hv settings. rewrite componentDidMount_load, Hv. fold settings.
  unfold loader_call.
  pose (P := fun (res : outcome unit * World) (pre : list Event) =>
    exists l lv s,
      own_calls (trace (snd res))
      = own_calls (trace w) ++ pre ++ stage_calls v l lv s
      /\ (s <> Stopped ->
          existing_layer v settings = Some l
          \/ loadLayer_result sch = Resolves (Some l))
      /\ (forall r, s = Ready r -> whenLayerView_result sch = Resolves lv)
      /\ (fst res = Done tt ->
          s = Stopped \/ s = Aborted \/ exists hs, s = Ready (Stored hs true))
      /\ ((exists hs, s = Ready (Stored hs true)) -> fst res = Done tt)).
  assert (Hstop : forall (o : outcome unit) (w' : World) pre,
            own_calls (trace w') = own_calls (trace w) ++ pre -> P (o, w') pre).
  { intros o w' pre H.
    exists (mkHandle "" 0 false), (mkLayerView 0 [] "" false), Stopped.
    simpl. rewrite app_nil_r. repeat split; auto; try contradiction;
      try discriminate.
    intros [hs Hs]. discriminate. }
  assert (Hgo : forall (w1 : World) pre l,
            own_calls (trace w1) = own_calls (trace w) ++ pre ->
            existing_layer v settings = Some l
            \/ loadLayer_result sch = Resolves (Some l) ->
            P (load_attach sch v settings l w1) pre).
  { intros w1 pre l H Hobt.
    destruct (load_attach_calls sch v settings l w1) as (lv & s & Hs & E & Hr & Hd).
    exists l, lv, s. rewrite E, H, <- app_assoc.
    repeat split; auto.
    - intros Hdone. right. now apply Hd.
    - intros Hst. apply Hd. now right. }
  change (P (load sch (VView v) settings (mounted w))
            match existing_layer v settings with
            | Some _ => []
            | None => [ELoadLayer settings]
            end).
  clearbody P.
  destruct (existing_layer v settings) as [l|] eqn:Hex.
  - rewrite (load_with_existing _ _ _ _ _ Hex). simpl negb. cbv iota.
    apply (Hgo (mounted w) [] l); [simpl; now rewrite app_nil_r|now left].
  - rewrite (load_without_existing _ _ _ _ Hex). cbv zeta.
    pose proof (own_calls_add (during_loadLayer sch) (mounted w)
                  [ELoadLayer settings]) as H1.
    set (w1 := interfere (during_loadLayer sch) _) in *. clearbody w1.
    change (own_calls [ELoadLayer settings]) with [ELoadLayer settings] in H1.
    change (trace (mounted w)) with (trace w) in H1.
    destruct (loadLayer_result sch) as [[l|]|] eqn:Hres.
    + destruct (negb (componentIsMounted w1)); [now apply Hstop|].
      apply Hgo; [assumption|now right].
    + destruct (negb (componentIsMounted w1)); now apply Hstop.
    + now apply Hstop.
Qed.

(** At the inputs: an undisturbed mount on an empty layer collection. *)
Lemma mount_calls_witness :
  let w := constructed (props_a view_empty) in
  let settings := getLayerSettings (props w) in
  exists l lv s,
    own_calls (trace (snd (componentDidMount undisturbed w)))
    = own_calls (trace w) ++ loader_call view_empty settings
        ++ stage_calls view_empty l lv s
    /\ (s <> Stopped ->
        existing_layer view_empty settings = Some l
        \/ loadLayer_result undisturbed = Resolves (Some l))
    /\ (forall r, s = Ready r -> whenLayerView_result undisturbed = Resolves lv)
    /\ (fst (componentDidMount undisturbed w) = Done tt ->
        s = Stopped \/ s = Aborted \/ exists hs, s = Ready (Stored hs true))
    /\ ((exists hs, s = Ready (Stored hs true)) ->
        fst (componentDidMount undisturbed w) = Done tt).
Proof.
  apply (mount_calls undisturbed (constructed (props_a view_empty)) view_empty).
  reflexivity.
Defined.

Lemma obtained_attach sch w v l (P : outcome unit * World -> Prop) :
  obtained sch v (getLayerSettings (props w)) l ->
  (forall w1, componentIsMounted w1 = true ->
              own_calls (trace w1)
              = own_calls (trace w)
                  ++ loader_call v (getLayerSettings (props w)) ->
              (forall Q : Obj -> Prop,
                  Q (props w) ->
                  (forall p, rendered (during_loadLayer sch) p -> Q p) ->
                  Q (props w1)) ->
              P (load_attach sch v (getLayerSettings (props w)) l w1)) ->
  get (props w) "view" = VView v ->
  P (componentDidMount sch w).
Proof.
  intros Hobt H Hv. rewrite componentDidMount_load, Hv. unfold loader_call in H.
  destruct Hobt as [Hex|(Hex & Hres & Hstay)]; rewrite Hex in H.
  - rewrite (load_with_existing _ _ _ _ _ Hex). simpl negb. cbv iota.
    apply H; [reflexivity|simpl; now rewrite app_nil_r|auto].
  - rewrite (load_without_existing _ _ _ _ Hex), Hres. cbv zeta.
    pose proof (own_calls_add (during_loadLayer sch) (mounted w)
                  [ELoadLayer (getLayerSettings (props w))]) as H1.
    pose proof (interfere_keeps_flag (during_loadLayer sch)
                  (add_events (mounted w)
                     [ELoadLayer (getLayerSettings (props w))]) Hstay) as Hf.
    assert (HQ : forall Q : Obj -> Prop,
               Q (props w) ->
               (forall p, rendered (during_loadLayer sch) p -> Q p) ->
               Q (props (interfere (during_loadLayer sch)
                           (add_events (mounted w)
                              [ELoadLayer (getLayerSettings (props w))])))).
    { intros Q Q0 Qr. now apply interfere_props. }
    set (w1 := interfere (during_loadLayer sch) _) in *. clearbody w1.
    simpl in Hf. rewrite Hf. simpl negb. cbv iota.
    apply H; assumption.
Qed.

(** X8. Rejections end the mount sequence where they occur, with no
    retry and no cleanup. When the loader rejects or resolves null the
    loader call is the only call of [load]; when the view resolution
    rejects, the handle stays added (no [remove]); when [layer.when()] or
    [applyUpdates] rejects, the sequence ends after [layer.when()], the
    handle added, nothing stored by [setState] and [onLoad] not called. *)
Theorem mount_rejections (sch : Schedule) (w : World) (v : View) :
  get (props w) "view" = VView v ->
  let settings := getLayerSettings (props w) in
  let res := componentDidMount sch w in
  (existing_layer v settings = None ->
   loadLayer_result sch = Rejects \/ loadLayer_result sch = Resolves None ->
   fst res = (match loadLayer_result sch with
              | Rejects => Thrown Rejection
              | Resolves _ => Done tt
              end)
   /\ own_calls (trace (snd res)) = own_calls (trace w) ++ [ELoadLayer settings])
  /\ (forall l,
        obtained sch v settings l ->
        whenLayerView_result sch = Rejects ->
        fst res = Thrown Rejection
        /\ own_calls (trace (snd res))
           = own_calls (trace w) ++ loader_call v settings
               ++ [EMapAdd v l; EWhenLayerView v l])
  /\ (forall l lv,
        obtained sch v settings l ->
        whenLayerView_result sch = Resolves lv ->
        ~ In Unmount (during_whenLayerView sch) ->
        when_result sch = Rejects \/ applyUpdates_result sch = Rejects ->
        fst res = Thrown Rejection
        /\ own_calls (trace (snd res))
           = own_calls (trace w) ++ loader_call v settings
               ++ [EMapAdd v l; EWhenLayerView v l; ELayerWhen l]).
Proof.
  intros Hv settings res. subst res. split; [|split].
  - intros Hex Hres. rewrite componentDidMount_load, Hv. fold settings.
    rewrite (load_without_existing _ _ _ _ Hex). cbv zeta.
    pose proof (own_calls_add (during_loadLayer sch) (mounted w)
                  [ELoadLayer settings]) as H1.
    set (w1 := interfere (during_loadLayer sch) _) in *. clearbody w1.
    destruct Hres as [-> | ->]; [now split|].
    destruct (negb (componentIsMounted w1)); now split.
  - intros l Hobt Hrej.
    apply (obtained_attach sch w v l
             (fun res => fst res = Thrown Rejection
                         /\ own_calls (trace (snd res))
                            = own_calls (trace w) ++ loader_call v settings
                                ++ [EMapAdd v l; EWhenLayerView v l]));
      [assumption| |assumption].
    intros w1 _ H1 _. rewrite load_attach_eq, Hrej. cbv zeta.
    split; [reflexivity|]. simpl snd.
    rewrite own_calls_add, H1. fold settings. now rewrite <- app_assoc.
  - intros l lv Hobt Hlv Hstay Hrej.
    apply (obtained_attach sch w v l
             (fun res => fst res = Thrown Rejection
                         /\ own_calls (trace (snd res))
                            = own_calls (trace w) ++ loader_call v settings
                                ++ [EMapAdd v l; EWhenLayerView v l;
                                    ELayerWhen l]));
      [assumption| |assumption].
    intros w1 Hf H1 _.
    remember (load_attach sch v (getLayerSettings (props w)) l w1) as res
      eqn:Hres.
    rewrite load_attach_eq, Hlv in Hres. cbv zeta in Hres.
    pose proof (own_calls_add (during_whenLayerView sch) w1
                  [EMapAdd v l; EWhenLayerView v l]) as H2.
    pose proof (interfere_keeps_flag (during_whenLayerView sch)
                  (add_events w1 [EMapAdd v l; EWhenLayerView v l]) Hstay) as Hf2.
    set (w2 := interfere (during_whenLayerView sch) _) in *. clearbody w2.
    simpl in Hf2. rewrite Hf2, Hf in Hres. simpl negb in Hres. cbv iota in Hres.
    rewrite H1 in H2. fold settings in H2.
    unfold load_ready in Hres. unfold bind at 1 in Hres.
    rewrite emit_add_events in Hres. cbv iota beta in Hres.
    unfold bind at 1, await at 1 in Hres.
    unfold bind at 1, modify at 1 in Hres. cbv iota beta in Hres.
    pose proof (own_calls_add (during_when sch) w2 [ELayerWhen l]) as H3.
    set (w3 := interfere (during_when sch) _) in *. clearbody w3.
    rewrite H2 in H3.
    change (own_calls [EMapAdd v l; EWhenLayerView v l])
      with [EMapAdd v l; EWhenLayerView v l] in H3.
    change (own_calls [ELayerWhen l]) with [ELayerWhen l] in H3.
    rewrite <- !app_assoc in H3.
    change ([EMapAdd v l; EWhenLayerView v l] ++ [ELayerWhen l])
      with [EMapAdd v l; EWhenLayerView v l; ELayerWhen l] in H3.
    destruct (when_result sch) as [[]|].
    2:{ unfold throw in Hres. cbv iota beta in Hres. subst res. now split. }
    destruct Hrej as [Hrej|Hrej]; [discriminate|].
    unfold ret at 1 in Hres. cbv iota beta in Hres.
    unfold bind at 1, getS at 1 in Hres. cbv iota beta in Hres.
    unfold bind at 1 in Hres. rewrite emit_add_events in Hres.
    cbv iota beta in Hres.
    unfold bind at 1, await at 1 in Hres. rewrite Hrej in Hres.
    unfold bind at 1, modify at 1 in Hres. cbv iota beta in Hres.
    unfold throw in Hres. cbv iota beta in Hres. subst res.
    split; [reflexivity|]. cbn [snd].
    rewrite own_calls_add, H3.
    change (own_calls [EApplyUpdates settings (props w3) (layer (state w3))
                         (layerView (state w3))]) with (@nil Event).
    now rewrite app_nil_r.
Qed.

(** At the inputs: the loader, the view resolution and [layer.when()]
    reject in turn. *)
Lemma mount_rejections_witness :
  let w := constructed (props_a view_empty) in
  let settings := getLayerSettings (props w) in
  (fst (componentDidMount loader_rejects w) = Thrown Rejection
   /\ own_calls (trace (snd (componentDidMount loader_rejects w)))
      = own_calls (trace w) ++ [ELoadLayer settings])
  /\ (fst (componentDidMount view_rejects w) = Thrown Rejection
      /\ own_calls (trace (snd (componentDidMount view_rejects w)))
         = own_calls (trace w) ++ loader_call view_empty settings
             ++ [EMapAdd view_empty layer_a; EWhenLayerView view_empty layer_a])
  /\ (fst (componentDidMount when_rejects w) = Thrown Rejection
      /\ own_calls (trace (snd (componentDidMount when_rejects w)))
         = own_calls (trace w) ++ loader_call view_empty settings
             ++ [EMapAdd view_empty layer_a; EWhenLayerView view_empty layer_a;
                 ELayerWhen layer_a]).
Proof.
  cbv zeta. split; [|split].
  - apply (proj1 (mount_rejections loader_rejects
                    (constructed (props_a view_empty)) view_empty eq_refl));
      [reflexivity|now left].
  - apply (proj1 (proj2 (mount_rejections view_rejects
                           (constructed (props_a view_empty)) view_empty
                           eq_refl)) layer_a); [|reflexivity].
    right. split; [reflexivity|]. split; [reflexivity|]. simpl. tauto.
  - apply (proj2 (proj2 (mount_rejections when_rejects
                           (constructed (props_a view_empty)) view_empty
                           eq_refl)) layer_a layerView_a);
      [|reflexivity|simpl; tauto|now left].
    right. split; [reflexivity|]. split; [reflexivity|]. simpl. tauto.
Defined.




(** X10. As long as the instance holds neither handle, nor view object,
    nor highlight set (from the constructor to the end of [load]),
    whatever React does (renders with any props, unmount) reaches no
    collaborator: the trace only gains the marks of the unmounts, the
    engine hands out no highlight handle, and the instance stays in that
    state. *)
Theorem nothing_reaches_the_engine_before_ready (acts : list Action) (w : World) :
  idle w ->
  idle (interfere acts w)
  /\ fresh (interfere acts w) = fresh w
  /\ trace (interfere acts w) = trace w ++ repeat EWillUnmount (unmounts acts).
Proof.
  revert w. induction acts as [|a acts IH]; intros w Hi.
  - simpl. rewrite app_nil_r. split; [exact Hi|now split].
  - simpl interfere. destruct (idle_act a w Hi) as (Hi' & Hf & Ht).
    destruct (IH (act a w) Hi') as (Hi'' & Hf' & Ht').
    split; [exact Hi''|]. split; [congruence|].
    rewrite Ht', Ht, <- app_assoc. f_equal.
    unfold unmounts. destruct a; reflexivity.
Qed.

(** At the inputs: a render with a selection, then an unmount, on the
    instance the constructor builds. *)
Lemma nothing_reaches_the_engine_before_ready_witness :
  let w := constructed (props_a view_empty) in
  let acts := [Rerender (props_a_selection view_empty); Unmount] in
  idle (interfere acts w)
  /\ fresh (interfere acts w) = fresh w
  /\ trace (interfere acts w) = trace w ++ repeat EWillUnmount (unmounts acts).
Proof.
  apply (nothing_reaches_the_engine_before_ready
           [Rerender (props_a_selection view_empty); Unmount]
           (constructed (props_a view_empty))).
  unfold idle. simpl. tauto.
Defined.

End LayerMoreFacts.

(** ** More on the DrawingTool component *)

Module SketchFacts.
Import Eff Eff.Notations DrawingTool Sketch.
Local Open Scope eff_scope.

Lemma op_eq o e : op o e = (Done tt, add_ops e [o]).
Proof. reflexivity. Qed.


Lemma add_ops_nil e : add_ops e [] = e.
Proof. destruct e. unfold add_ops. simpl. now rewrite app_nil_r. Qed.

Lemma getSymbol_eq type e m :
  model (tool e) = Some m -> getSymbol type e = (Done (m, symbol_of type), e).
Proof.
  intros Hm. unfold getSymbol, bind, getS, ret, symbol_of. rewrite Hm.
  destruct (strict_eqb type (VStr "point") || strict_eqb type (VStr "multipoint"));
    [reflexivity|].
  destruct (strict_eqb type (VStr "polygon")) eqn:E; [|reflexivity].
  apply ObjFacts.strict_eqb_str in E. subst. reflexivity.
Qed.

Lemma setGraphic_eq g e l m :
  layer (tool e) = Some l -> model (tool e) = Some m ->
  setGraphic g e = (Done tt, add_ops e (install_calls l m g)).
Proof.
  intros Hl Hm. unfold setGraphic. unfold bind at 1, getS at 1. cbv iota beta.
  rewrite Hl. unfold bind at 1. rewrite (getSymbol_eq _ _ _ Hm). cbv iota beta.
  unfold bind, op, modify, getS. simpl. rewrite Hl, Hm. simpl.
  unfold add_ops, install_calls. now rewrite <- app_assoc.
Qed.


Lemma createGraphic_eq e m :
  model (tool e) = Some m ->
  createGraphic e = (Done tt, add_ops e (draw_calls m (eprops e))).
Proof.
  intros Hm. unfold createGraphic, bind, getS. now rewrite Hm.
Qed.



Lemma unset_update p e : unset e -> update p e = (Done tt, with_props e p).
Proof.
  intros (Hc & Hu & Hm & Hl). destruct e as [[oc ou om ol v cs] q os n].
  simpl in *. subst. reflexivity.
Qed.

Lemma unset_unmount raises e : unset e -> unmount raises e = (Done tt, e).
Proof.
  intros (Hc & Hu & Hm & Hl). destruct e as [[oc ou om ol v cs] p os n].
  simpl in *. subst. reflexivity.
Qed.

Lemma with_props_unset e p : unset e -> unset (with_props e p).
Proof. intros H. exact H. Qed.

Lemma with_props_twice e p q : with_props (with_props e p) q = with_props e q.
Proof. reflexivity. Qed.

Lemma with_props_same e : consistent e -> with_props e (eprops e) = e.
Proof.
  unfold consistent. destruct e as [[oc ou om ol v cs] p os n]. simpl.
  intros ->. reflexivity.
Qed.

Lemma interfere_unset raises acts : forall e p,
  unset e ->
  tool_interfere raises acts (with_props e p)
  = with_props e (props_after acts p).
Proof.
  induction acts as [|a acts IH]; intros e p Hu; simpl; [reflexivity|].
  destruct a as [|q]; simpl.
  - rewrite unset_unmount by exact Hu. now apply IH.
  - rewrite unset_update by exact Hu. rewrite with_props_twice. now apply IH.
Qed.

(** X12. Before [componentDidMount] has assigned its fields, whatever
    React does (prop updates, unmount) makes no call at all: the
    instance only takes the last props it was given. *)
Theorem nothing_happens_before_the_modules_load
  (raises : Call -> bool) (acts : list ToolAction) (e : Editor) :
  unset e -> consistent e ->
  tool_interfere raises acts e = with_props e (props_after acts (eprops e)).
Proof.
  intros Hu Hc. rewrite <- (with_props_same e Hc) at 1.
  now apply interfere_unset.
Qed.

(** At the inputs: the geometry prop is cleared, then the editor is
    unmounted, before the modules are loaded. *)
Lemma nothing_happens_before_the_modules_load_witness :
  tool_interfere never [TUpdate props_empty; TUnmount]
                 (fresh_editor props_polygon)
  = with_props (fresh_editor props_polygon)
      (props_after [TUpdate props_empty; TUnmount]
                   (eprops (fresh_editor props_polygon))).
Proof.
  apply (nothing_happens_before_the_modules_load never
           [TUpdate props_empty; TUnmount] (fresh_editor props_polygon)).
  - unfold unset. simpl. tauto.
  - reflexivity.
Defined.

Lemma componentDidMount_loading raises acts e :
  unset e -> consistent e ->
  tool_interfere raises acts (add_ops e [OLoadModules])
  = with_props (add_ops e [OLoadModules]) (props_after acts (eprops e)).
Proof.
  intros Hu Hc.
  rewrite <- (with_props_same (add_ops e [OLoadModules]) Hc) at 1.
  now apply interfere_unset.
Qed.

Lemma componentDidMount_resolved raises acts e :
  unset e -> consistent e ->
  componentDidMount raises (Layer.Resolves tt) acts e
  = (Done tt,
     mkEditor (mkTool (Some (S (S (next e)))) (Some (S (S (S (next e)))))
                      (Some (S (next e))) (Some (next e))
                      (pview (props_after acts (eprops e))) (calls (tool e)))
              (props_after acts (eprops e))
              (ops e ++ OLoadModules
                     :: mount_ops e (props_after acts (eprops e)))
              (S (S (S (S (next e)))))).
Proof.
  intros Hu Hc.
  unfold componentDidMount. unfold bind at 1, getS at 1. cbv iota beta zeta.
  unfold bind at 1. rewrite op_eq. cbv iota beta.
  unfold bind at 1, modify at 1. cbv iota beta.
  rewrite (componentDidMount_loading raises acts e Hu Hc).
  set (p' := props_after acts (eprops e)). clearbody p'.
  unfold mount_ops.
  destruct Hu as (Hoc & Hou & Hm & Hl).
  destruct e as [[oc ou om ol v cs] p os k].
  cbn [tool eprops ops next onCreate onUpdate model layer view calls] in *.
  subst.
  cbv [new_id set_layer set_model set_onCreate set_onUpdate set_tool bind op
       modify getS ret with_props add_ops tool eprops ops next onCreate
       onUpdate model layer view calls].
  destruct (pgeometry p) as [g|].
  - destruct (isValidGeometry (Some g)).
    + rewrite setGraphic_eq with (l := k) (m := S k) by reflexivity.
      unfold add_ops.
      cbn [tool eprops ops next onCreate onUpdate model layer view calls].
      rewrite <- !app_assoc. reflexivity.
    + rewrite createGraphic_eq with (m := S k) by reflexivity.
      unfold add_ops.
      cbn [tool eprops ops next onCreate onUpdate model layer view calls].
      rewrite <- !app_assoc. reflexivity.
  - rewrite createGraphic_eq with (m := S k) by reflexivity.
    unfold add_ops.
    cbn [tool eprops ops next onCreate onUpdate model layer view calls].
    rewrite <- !app_assoc. reflexivity.
Qed.

(** X13. Once the modules are loaded, a mount creates the scratch
    layer, adds it to the map of the view read before the await, creates
    the model on them, subscribes to the create and the update stream in
    this order, and then does exactly one of two things: it installs the
    geometry read before the await and reshapes it when that geometry has
    a valid type, and otherwise starts a drawing session with the
    geometry type and mode of the current props. An unmount during the
    loading neither stops this nor makes any teardown call. When the
    module load rejects, nothing is created. *)
Theorem mount_installs_or_draws
  (raises : Call -> bool) (acts : list ToolAction) (e : Editor) :
  unset e -> consistent e ->
  let p' := props_after acts (eprops e) in
  let n := next e in
  componentDidMount raises (Layer.Resolves tt) acts e
  = (Done tt,
     mkEditor (mkTool (Some (S (S n))) (Some (S (S (S n)))) (Some (S n))
                      (Some n) (pview p') (calls (tool e)))
              p' (ops e ++ OLoadModules :: mount_ops e p')
              (S (S (S (S n)))))
  /\ componentDidMount raises Layer.Rejects acts e
     = (Thrown Rejection, with_props (add_ops e [OLoadModules]) p').
Proof.
  intros Hu Hc p' n. split.
  - now apply componentDidMount_resolved.
  - unfold componentDidMount. unfold bind at 1, getS at 1. cbv iota beta zeta.
    unfold bind at 1. rewrite op_eq. cbv iota beta.
    unfold bind at 1, modify at 1. cbv iota beta.
    now rewrite (componentDidMount_loading raises acts e Hu Hc).
Qed.

(** At the inputs: mounted with a polygon, the editor has its geometry
    prop cleared and is unmounted while the modules load. *)
Lemma mount_installs_or_draws_witness :
  let e := fresh_editor props_polygon in
  let acts := [TUpdate props_empty; TUnmount] in
  componentDidMount never (Layer.Resolves tt) acts e
  = (Done tt,
     mkEditor (mkTool (Some 2) (Some 3) (Some 1) (Some 0) 0 [])
              props_empty
              [ OLoadModules; ONewGraphicsLayer 0; OMapAdd 0 0;
                ONewSketchViewModel 1 0 0; OOn 1 StreamCreate 2;
                OOn 1 StreamUpdate 3;
                OGraphicsAdd 0 polygon_a 1 polygonSymbol;
                OModelUpdate 1 (FirstGraphic 0) ]
              4)
  /\ componentDidMount never Layer.Rejects acts e
     = (Thrown Rejection, with_props (add_ops e [OLoadModules]) props_empty).
Proof.
  apply (mount_installs_or_draws never [TUpdate props_empty; TUnmount]
           (fresh_editor props_polygon)).
  - unfold unset. simpl. tauto.
  - reflexivity.
Defined.

(** X14. A teardown after a mount releases what the mount acquired: the
    two subscriptions [on] returned are removed, the model the mount
    created is completed, cancelled, reset and destroyed, and the layer
    it created is removed from the map of the view the props hold at that
    time. *)
Theorem mount_then_teardown
  (raises : Call -> bool) (acts : list ToolAction) (e : Editor) :
  unset e -> consistent e ->
  let e1 := snd (componentDidMount raises (Layer.Resolves tt) acts e) in
  let n := next e in
  In (ONewGraphicsLayer n) (ops e1)
  /\ In (ONewSketchViewModel (S n) n (view (tool e))) (ops e1)
  /\ In (OOn (S n) StreamCreate (S (S n))) (ops e1)
  /\ In (OOn (S n) StreamUpdate (S (S (S n)))) (ops e1)
  /\ unmount never e1
     = (Done tt,
        mkEditor (mkTool (onCreate (tool e1)) (onUpdate (tool e1))
                         (model (tool e1)) (layer (tool e1)) (view (tool e1))
                         (calls (tool e)
                          ++ teardown_order (S (S n)) (S (S (S n))) (S n)
                               (view (tool e1)) n))
                 (eprops e1) (ops e1) (next e1)).
Proof.
  intros Hu Hc. cbv zeta.
  rewrite (componentDidMount_resolved raises acts e Hu Hc).
  cbn [snd ops tool eprops next onCreate onUpdate model layer view calls].
  unfold mount_ops.
  repeat split;
    try (apply in_or_app; right; simpl; tauto).
  unfold unmount, DrawingTool.componentWillUnmount, call, never, teardown_order.
  unfold bind, getS, ret, modify. simpl. rewrite <- !app_assoc. reflexivity.
Qed.

(** At the inputs: an editor mounted without a geometry. *)
Lemma mount_then_teardown_witness :
  let e := fresh_editor props_empty in
  let e1 := snd (componentDidMount never (Layer.Resolves tt) [] e) in
  In (ONewGraphicsLayer 0) (ops e1)
  /\ In (ONewSketchViewModel 1 0 0) (ops e1)
  /\ In (OOn 1 StreamCreate 2) (ops e1)
  /\ In (OOn 1 StreamUpdate 3) (ops e1)
  /\ unmount never e1
     = (Done tt,
        mkEditor (mkTool (onCreate (tool e1)) (onUpdate (tool e1))
                         (model (tool e1)) (layer (tool e1)) (view (tool e1))
                         (calls (tool e)
                          ++ teardown_order 2 3 1 (view (tool e1)) 0))
                 (eprops e1) (ops e1) (next e1)).
Proof.
  apply (mount_then_teardown never [] (fresh_editor props_empty)).
  - unfold unset. simpl. tauto.
  - reflexivity.
Defined.

(** X15. The handlers of the engine events, on an editor whose model
    exists. A completed creation is reported to [onDraw] with the
    geometry of its graphic and the area 1, then that graphic is put in
    reshape; a cancelled creation starts a new drawing session unless the
    geometry prop is marked [reset]; any other create state does nothing.
    An update in state active or complete is reported with the geometry
    of its first graphic and the area 1, and is a TypeError when it
    carries no graphic; any other update state does nothing. *)
Theorem event_handlers (e : Editor) (m : nat) :
  model (tool e) = Some m ->
  (forall graphic,
      on_create (mkCreateEvent (VStr "complete") (Some graphic)) e
      = (Done tt,
         add_ops e [OOnDraw (sgeometry graphic) 1;
                    OModelUpdate m (ThisGraphic graphic)]))
  /\ (forall graphic,
        on_create (mkCreateEvent (VStr "cancel") graphic) e
        = (Done tt,
           add_ops e
             (match pgeometry (eprops e) with
              | Some g => if greset g then [] else draw_calls m (eprops e)
              | None => draw_calls m (eprops e)
              end)))
  /\ (forall st graphic,
        st <> VStr "complete" -> st <> VStr "cancel" ->
        on_create (mkCreateEvent st graphic) e = (Done tt, e))
  /\ (forall st graphics,
        on_update (mkUpdateEvent st graphics) e
        = if strict_eqb st (VStr "active") || strict_eqb st (VStr "complete")
          then match graphics with
               | graphic :: _ =>
                   (Done tt, add_ops e [OOnDraw (sgeometry graphic) 1])
               | [] => (Thrown TypeError, e)
               end
          else (Done tt, e)).
Proof.
  intros Hm. repeat split.
  - intros graphic. unfold on_create, bind, op, modify, getS. simpl.
    rewrite Hm. unfold add_ops. simpl. now rewrite <- app_assoc.
  - intros graphic. unfold on_create, onCancel, bind, getS. simpl.
    destruct (pgeometry (eprops e)) as [g|].
    + destruct (greset g); [unfold ret; now rewrite add_ops_nil|].
      now apply createGraphic_eq.
    + now apply createGraphic_eq.
  - intros st graphic H1 H2. unfold on_create. cbn [cstate cgraphic].
    destruct (strict_eqb st (VStr "complete")) eqn:E1.
    { apply ObjFacts.strict_eqb_str in E1. contradiction. }
    destruct (strict_eqb st (VStr "cancel")) eqn:E2.
    { apply ObjFacts.strict_eqb_str in E2. contradiction. }
    reflexivity.
  - intros st graphics. unfold on_update. cbn [ustate ugraphics].
    destruct (strict_eqb st (VStr "active") || strict_eqb st (VStr "complete"));
      [|reflexivity].
    now destruct graphics.
Qed.

(** At the inputs: the editor a mount without a geometry leaves. *)
Lemma event_handlers_witness :
  let e := snd (componentDidMount never (Layer.Resolves tt) []
                  (fresh_editor props_empty)) in
  (forall graphic,
      on_create (mkCreateEvent (VStr "complete") (Some graphic)) e
      = (Done tt,
         add_ops e [OOnDraw (sgeometry graphic) 1;
                    OModelUpdate 1 (ThisGraphic graphic)]))
  /\ (forall graphic,
        on_create (mkCreateEvent (VStr "cancel") graphic) e
        = (Done tt,
           add_ops e
             (match pgeometry (eprops e) with
              | Some g => if greset g then [] else draw_calls 1 (eprops e)
              | None => draw_calls 1 (eprops e)
              end)))
  /\ (forall st graphic,
        st <> VStr "complete" -> st <> VStr "cancel" ->
        on_create (mkCreateEvent st graphic) e = (Done tt, e))
  /\ (forall st graphics,
        on_update (mkUpdateEvent st graphics) e
        = if strict_eqb st (VStr "active") || strict_eqb st (VStr "complete")
          then match graphics with
               | graphic :: _ =>
                   (Done tt, add_ops e [OOnDraw (sgeometry graphic) 1])
               | [] => (Thrown TypeError, e)
               end
          else (Done tt, e)).
Proof.
  apply (event_handlers
           (snd (componentDidMount never (Layer.Resolves tt) []
                   (fresh_editor props_empty))) 1).
  reflexivity.
Defined.

End SketchFacts.

(** ** More on the Highlight Resolver *)

Module HighlightMoreFacts.
Import Highlight HighlightFacts.

Lemma first_with_global_id_app gs more gid g :
  first_with_global_id gs gid = Some g ->
  first_with_global_id (gs ++ more) gid = Some g.
Proof.
  induction gs as [|g0 gs IH]; simpl; [discriminate|].
  destruct (strict_eqb (get (attributes g0) "GlobalID") gid); auto.
Qed.

Lemma first_with_global_id_miss gs more gid :
  first_with_global_id gs gid = None ->
  first_with_global_id (gs ++ more) gid = first_with_global_id more gid.
Proof.
  induction gs as [|g0 gs IH]; simpl; [reflexivity|].
  destruct (strict_eqb (get (attributes g0) "GlobalID") gid);
    [discriminate|exact IH].
Qed.

(** X16. The lookup by global identifier takes the first graphic that
    matches, so features loaded later never change an id that is already
    resolved: if a graphic of the view object has the global identifier,
    the lookup gives the same answer once more graphics are appended; and
    if none has it, the answer is the one the appended graphics give. *)
Theorem resolved_ids_are_stable
  (ref : nat) (field : string) (hl : bool)
  (gs more : list Graphic) (gid : value) :
  (forall g,
      first_with_global_id gs gid = Some g ->
      getOIDfromGlobalId (mkLayerView ref (gs ++ more) field hl) gid
      = getOIDfromGlobalId (mkLayerView ref gs field hl) gid)
  /\ (first_with_global_id gs gid = None ->
      getOIDfromGlobalId (mkLayerView ref gs field hl) gid = VNull
      /\ getOIDfromGlobalId (mkLayerView ref (gs ++ more) field hl) gid
         = getOIDfromGlobalId (mkLayerView ref more field hl) gid).
Proof.
  unfold getOIDfromGlobalId. simpl. rewrite !find_first_with_global_id. split.
  - intros g H. now rewrite (first_with_global_id_app gs more gid g H), H.
  - intros H. now rewrite (first_with_global_id_miss gs more gid H), H.
Qed.

(** At the inputs: one graphic with the global identifier [u] and the
    native id 7, and a second one with the same global identifier loaded
    later. *)
Lemma resolved_ids_are_stable_witness :
  let g1 := mkGraphic [("GlobalID", VStr "u"); ("OBJECTID", VNum 7)] in
  let g2 := mkGraphic [("GlobalID", VStr "u"); ("OBJECTID", VNum 8)] in
  getOIDfromGlobalId (mkLayerView 0 ([g1] ++ [g2]) "OBJECTID" true) (VStr "u")
  = getOIDfromGlobalId (mkLayerView 0 [g1] "OBJECTID" true) (VStr "u").
Proof.
  cbv zeta.
  apply (proj1 (resolved_ids_are_stable 0 "OBJECTID" true
                  [mkGraphic [("GlobalID", VStr "u"); ("OBJECTID", VNum 7)]]
                  [mkGraphic [("GlobalID", VStr "u"); ("OBJECTID", VNum 8)]]
                  (VStr "u"))
               (mkGraphic [("GlobalID", VStr "u"); ("OBJECTID", VNum 7)])).
  reflexivity.
Defined.

End HighlightMoreFacts.
